(** * app_vendedores: column mapping, filters and aggregation

    A shallow embedding of [app_vendedores.py], the Streamlit sales
    dashboard.  The script is a straight-line program over a pandas
    [DataFrame]; the embedding follows it top to bottom:

    - [PyStr]: the two [str] methods the script calls ([lower], [strip]);
    - [Frame]: labels, cells and data frames, with the pandas operations
      the script uses on them ([rename], [df[name]], [df[name] = s]);
    - [Normalizer]: [pd.to_numeric] with [errors="coerce"];
    - [Mapper]: lines 34-70, from the column guesser to the required
      column check, with the exceptions the statements in between raise;
    - [Sales], [Filters]: lines 75-88, the cascading selectors and the
      row mask, on the rows of the frame the mapping hands on;
    - [Arithmetic], [Aggregator], [Report]: lines 91-97, 109-116 and
      146-157, the sums and shares, over any arithmetic of the numeric
      columns;
    - [Numpy]: that arithmetic on int64 and float64 values;
    - [Spec], [Terms]: the notions the statements are phrased with.

    Conventions.  A Python [str] is the list of bytes of its UTF-8
    encoding.  A Python [dict] is a [gmap], a Python [set] a [gset].  The
    numbers of the columns [unidades] and [ventas] are the values of a type
    [num] with the operations of [Arith]; what depends on how NumPy adds,
    divides and rounds is stated for [Numpy.number], where an int64 wraps
    around and a float64 is a binary64 float. *)

From Stdlib Require Import Ascii String ZArith QArith Qcanon Floats.
From stdpp Require Import gmap strings list fin_maps sorting.

Local Open Scope string_scope.

(** ** Python string methods *)

Module PyStr.

(** A Python [str] is a sequence of code points; a string of this file is
    the sequence of bytes of its UTF-8 encoding.  [decode] and [encode] go
    from one to the other.  A byte that is not part of a well-formed
    sequence cannot come from a [str]; [decode] keeps it apart, as 56320
    plus the byte, and [encode] puts it back. *)
Definition byte (a : ascii) : Z := Z.of_N (N_of_ascii a).

Definition chr (z : Z) : ascii := ascii_of_N (Z.to_N z).

Definition is_cont (b : Z) : bool := ((128 <=? b) && (b <=? 191))%Z.

Definition point2 (b0 b1 : Z) : Z := ((b0 - 192) * 64 + (b1 - 128))%Z.

Definition point3 (b0 b1 b2 : Z) : Z :=
  ((b0 - 224) * 4096 + (b1 - 128) * 64 + (b2 - 128))%Z.

Definition point4 (b0 b1 b2 b3 : Z) : Z :=
  ((b0 - 240) * 262144 + (b1 - 128) * 4096 + (b2 - 128) * 64 + (b3 - 128))%Z.

Definition is_point2 (b0 b1 : Z) : bool :=
  ((194 <=? b0) && (b0 <=? 223) && is_cont b1)%Z.

Definition is_point3 (b0 b1 b2 : Z) : bool :=
  ((224 <=? b0) && (b0 <=? 239) && is_cont b1 && is_cont b2
   && (2048 <=? point3 b0 b1 b2)
   && negb ((55296 <=? point3 b0 b1 b2) && (point3 b0 b1 b2 <=? 57343)))%Z.

Definition is_point4 (b0 b1 b2 b3 : Z) : bool :=
  ((240 <=? b0) && (b0 <=? 244) && is_cont b1 && is_cont b2 && is_cont b3
   && (65536 <=? point4 b0 b1 b2 b3) && (point4 b0 b1 b2 b3 <=? 1114111))%Z.

Fixpoint decode (s : string) : list Z :=
  match s with
  | EmptyString => []
  | String a0 s1 =>
      if (byte a0 <? 128)%Z then byte a0 :: decode s1
      else
        match s1 with
        | EmptyString => (56320 + byte a0)%Z :: decode s1
        | String a1 s2 =>
            if is_point2 (byte a0) (byte a1)
            then point2 (byte a0) (byte a1) :: decode s2
            else
              match s2 with
              | EmptyString => (56320 + byte a0)%Z :: decode s1
              | String a2 s3 =>
                  if is_point3 (byte a0) (byte a1) (byte a2)
                  then point3 (byte a0) (byte a1) (byte a2) :: decode s3
                  else
                    match s3 with
                    | EmptyString => (56320 + byte a0)%Z :: decode s1
                    | String a3 s4 =>
                        if is_point4 (byte a0) (byte a1) (byte a2) (byte a3)
                        then point4 (byte a0) (byte a1) (byte a2) (byte a3)
                             :: decode s4
                        else (56320 + byte a0)%Z :: decode s1
                    end
              end
        end
  end.

Definition encode_point (p : Z) : list Z :=
  (if p <? 128 then [p]
   else if p <? 2048 then [192 + p / 64; 128 + p mod 64]
   else if (56448 <=? p) && (p <=? 56575) then [p - 56320]
   else if p <? 65536
        then [224 + p / 4096; 128 + (p / 64) mod 64; 128 + p mod 64]
   else [240 + p / 262144; 128 + (p / 4096) mod 64; 128 + (p / 64) mod 64;
         128 + p mod 64])%Z.

Definition encode (l : list Z) : string :=
  string_of_list_ascii (chr <$> (l ≫= encode_point)).

(** The code points for which [str.isspace] holds (Unicode 14). *)
Definition whitespace : list Z :=
  [9; 10; 11; 12; 13; 28; 29; 30; 31; 32; 133; 160;
   5760; 8192; 8193; 8194; 8195; 8196; 8197; 8198; 8199; 8200; 8201; 8202;
   8232; 8233; 8239; 8287; 12288]%Z.

(** The code points [str.lower] changes. *)
Definition lower_table : list (Z * Z * Z * Z) :=
  [(65, 90, 1, 32); (192, 214, 1, 32); (216, 222, 1, 32);
   (256, 302, 2, 1); (306, 310, 2, 1); (313, 327, 2, 1);
   (330, 374, 2, 1); (376, 376, 1, (-121)); (377, 381, 2, 1);
   (385, 385, 1, 210); (386, 388, 2, 1); (390, 390, 1, 206);
   (391, 391, 1, 1); (393, 394, 1, 205); (395, 395, 1, 1);
   (398, 398, 1, 79); (399, 399, 1, 202); (400, 400, 1, 203);
   (401, 401, 1, 1); (403, 403, 1, 205); (404, 404, 1, 207);
   (406, 406, 1, 211); (407, 407, 1, 209); (408, 408, 1, 1);
   (412, 412, 1, 211); (413, 413, 1, 213); (415, 415, 1, 214);
   (416, 420, 2, 1); (422, 422, 1, 218); (423, 423, 1, 1);
   (425, 425, 1, 218); (428, 428, 1, 1); (430, 430, 1, 218);
   (431, 431, 1, 1); (433, 434, 1, 217); (435, 437, 2, 1);
   (439, 439, 1, 219); (440, 440, 1, 1); (444, 444, 1, 1);
   (452, 452, 1, 2); (453, 453, 1, 1); (455, 455, 1, 2);
   (456, 456, 1, 1); (458, 458, 1, 2); (459, 475, 2, 1);
   (478, 494, 2, 1); (497, 497, 1, 2); (498, 500, 2, 1);
   (502, 502, 1, (-97)); (503, 503, 1, (-56)); (504, 542, 2, 1);
   (544, 544, 1, (-130)); (546, 562, 2, 1); (570, 570, 1, 10795);
   (571, 571, 1, 1); (573, 573, 1, (-163)); (574, 574, 1, 10792);
   (577, 577, 1, 1); (579, 579, 1, (-195)); (580, 580, 1, 69);
   (581, 581, 1, 71); (582, 590, 2, 1); (880, 882, 2, 1);
   (886, 886, 1, 1); (895, 895, 1, 116); (902, 902, 1, 38);
   (904, 906, 1, 37); (908, 908, 1, 64); (910, 911, 1, 63);
   (913, 929, 1, 32); (931, 939, 1, 32); (975, 975, 1, 8);
   (984, 1006, 2, 1); (1012, 1012, 1, (-60)); (1015, 1015, 1, 1);
   (1017, 1017, 1, (-7)); (1018, 1018, 1, 1); (1021, 1023, 1, (-130));
   (1024, 1039, 1, 80); (1040, 1071, 1, 32); (1120, 1152, 2, 1);
   (1162, 1214, 2, 1); (1216, 1216, 1, 15); (1217, 1229, 2, 1);
   (1232, 1326, 2, 1); (1329, 1366, 1, 48); (4256, 4293, 1, 7264);
   (4295, 4295, 1, 7264); (4301, 4301, 1, 7264); (5024, 5103, 1, 38864);
   (5104, 5109, 1, 8); (7312, 7354, 1, (-3008)); (7357, 7359, 1, (-3008));
   (7680, 7828, 2, 1); (7838, 7838, 1, (-7615)); (7840, 7934, 2, 1);
   (7944, 7951, 1, (-8)); (7960, 7965, 1, (-8)); (7976, 7983, 1, (-8));
   (7992, 7999, 1, (-8)); (8008, 8013, 1, (-8)); (8025, 8031, 2, (-8));
   (8040, 8047, 1, (-8)); (8072, 8079, 1, (-8)); (8088, 8095, 1, (-8));
   (8104, 8111, 1, (-8)); (8120, 8121, 1, (-8)); (8122, 8123, 1, (-74));
   (8124, 8124, 1, (-9)); (8136, 8139, 1, (-86)); (8140, 8140, 1, (-9));
   (8152, 8153, 1, (-8)); (8154, 8155, 1, (-100)); (8168, 8169, 1, (-8));
   (8170, 8171, 1, (-112)); (8172, 8172, 1, (-7)); (8184, 8185, 1, (-128));
   (8186, 8187, 1, (-126)); (8188, 8188, 1, (-9)); (8486, 8486, 1, (-7517));
   (8490, 8490, 1, (-8383)); (8491, 8491, 1, (-8262)); (8498, 8498, 1, 28);
   (8544, 8559, 1, 16); (8579, 8579, 1, 1); (9398, 9423, 1, 26);
   (11264, 11311, 1, 48); (11360, 11360, 1, 1); (11362, 11362, 1, (-10743));
   (11363, 11363, 1, (-3814)); (11364, 11364, 1, (-10727)); (11367, 11371, 2, 1);
   (11373, 11373, 1, (-10780)); (11374, 11374, 1, (-10749)); (11375, 11375, 1, (-10783));
   (11376, 11376, 1, (-10782)); (11378, 11378, 1, 1); (11381, 11381, 1, 1);
   (11390, 11391, 1, (-10815)); (11392, 11490, 2, 1); (11499, 11501, 2, 1);
   (11506, 11506, 1, 1); (42560, 42604, 2, 1); (42624, 42650, 2, 1);
   (42786, 42798, 2, 1); (42802, 42862, 2, 1); (42873, 42875, 2, 1);
   (42877, 42877, 1, (-35332)); (42878, 42886, 2, 1); (42891, 42891, 1, 1);
   (42893, 42893, 1, (-42280)); (42896, 42898, 2, 1); (42902, 42920, 2, 1);
   (42922, 42922, 1, (-42308)); (42923, 42923, 1, (-42319)); (42924, 42924, 1, (-42315));
   (42925, 42925, 1, (-42305)); (42926, 42926, 1, (-42308)); (42928, 42928, 1, (-42258));
   (42929, 42929, 1, (-42282)); (42930, 42930, 1, (-42261)); (42931, 42931, 1, 928);
   (42932, 42946, 2, 1); (42948, 42948, 1, (-48)); (42949, 42949, 1, (-42307));
   (42950, 42950, 1, (-35384)); (42951, 42953, 2, 1); (42960, 42960, 1, 1);
   (42966, 42968, 2, 1); (42997, 42997, 1, 1); (65313, 65338, 1, 32);
   (66560, 66599, 1, 40); (66736, 66771, 1, 40); (66928, 66964, 2, 39);
   (66929, 66938, 1, 39); (66941, 66954, 1, 39); (66957, 66962, 1, 39);
   (66965, 66965, 1, 39); (68736, 68786, 1, 64); (71840, 71871, 1, 32);
   (93760, 93791, 1, 32); (125184, 125217, 1, 34)]%Z.

(** The case-ignorable code points. *)
Definition case_ignorable : list (Z * Z) :=
  [(39, 39); (46, 46); (58, 58); (94, 94); (96, 96);
   (168, 168); (173, 173); (175, 175); (180, 180); (183, 184);
   (688, 879); (884, 885); (890, 890); (900, 901); (903, 903);
   (1155, 1161); (1369, 1369); (1375, 1375); (1425, 1469); (1471, 1471);
   (1473, 1474); (1476, 1477); (1479, 1479); (1524, 1524); (1536, 1541);
   (1552, 1562); (1564, 1564); (1600, 1600); (1611, 1631); (1648, 1648);
   (1750, 1757); (1759, 1768); (1770, 1773); (1807, 1807); (1809, 1809);
   (1840, 1866); (1958, 1968); (2027, 2037); (2042, 2042); (2045, 2045);
   (2070, 2093); (2137, 2139); (2184, 2184); (2192, 2193); (2200, 2207);
   (2249, 2306); (2362, 2362); (2364, 2364); (2369, 2376); (2381, 2381);
   (2385, 2391); (2402, 2403); (2417, 2417); (2433, 2433); (2492, 2492);
   (2497, 2500); (2509, 2509); (2530, 2531); (2558, 2558); (2561, 2562);
   (2620, 2620); (2625, 2626); (2631, 2632); (2635, 2637); (2641, 2641);
   (2672, 2673); (2677, 2677); (2689, 2690); (2748, 2748); (2753, 2757);
   (2759, 2760); (2765, 2765); (2786, 2787); (2810, 2815); (2817, 2817);
   (2876, 2876); (2879, 2879); (2881, 2884); (2893, 2893); (2901, 2902);
   (2914, 2915); (2946, 2946); (3008, 3008); (3021, 3021); (3072, 3072);
   (3076, 3076); (3132, 3132); (3134, 3136); (3142, 3144); (3146, 3149);
   (3157, 3158); (3170, 3171); (3201, 3201); (3260, 3260); (3263, 3263);
   (3270, 3270); (3276, 3277); (3298, 3299); (3328, 3329); (3387, 3388);
   (3393, 3396); (3405, 3405); (3426, 3427); (3457, 3457); (3530, 3530);
   (3538, 3540); (3542, 3542); (3633, 3633); (3636, 3642); (3654, 3662);
   (3761, 3761); (3764, 3772); (3782, 3782); (3784, 3789); (3864, 3865);
   (3893, 3893); (3895, 3895); (3897, 3897); (3953, 3966); (3968, 3972);
   (3974, 3975); (3981, 3991); (3993, 4028); (4038, 4038); (4141, 4144);
   (4146, 4151); (4153, 4154); (4157, 4158); (4184, 4185); (4190, 4192);
   (4209, 4212); (4226, 4226); (4229, 4230); (4237, 4237); (4253, 4253);
   (4348, 4348); (4957, 4959); (5906, 5908); (5938, 5939); (5970, 5971);
   (6002, 6003); (6068, 6069); (6071, 6077); (6086, 6086); (6089, 6099);
   (6103, 6103); (6109, 6109); (6155, 6159); (6211, 6211); (6277, 6278);
   (6313, 6313); (6432, 6434); (6439, 6440); (6450, 6450); (6457, 6459);
   (6679, 6680); (6683, 6683); (6742, 6742); (6744, 6750); (6752, 6752);
   (6754, 6754); (6757, 6764); (6771, 6780); (6783, 6783); (6823, 6823);
   (6832, 6862); (6912, 6915); (6964, 6964); (6966, 6970); (6972, 6972);
   (6978, 6978); (7019, 7027); (7040, 7041); (7074, 7077); (7080, 7081);
   (7083, 7085); (7142, 7142); (7144, 7145); (7149, 7149); (7151, 7153);
   (7212, 7219); (7222, 7223); (7288, 7293); (7376, 7378); (7380, 7392);
   (7394, 7400); (7405, 7405); (7412, 7412); (7416, 7417); (7468, 7530);
   (7544, 7544); (7579, 7679); (8125, 8125); (8127, 8129); (8141, 8143);
   (8157, 8159); (8173, 8175); (8189, 8190); (8203, 8207); (8216, 8217);
   (8228, 8228); (8231, 8231); (8234, 8238); (8288, 8292); (8294, 8303);
   (8305, 8305); (8319, 8319); (8336, 8348); (8400, 8432); (11388, 11389);
   (11503, 11505); (11631, 11631); (11647, 11647); (11744, 11775); (11823, 11823);
   (12293, 12293); (12330, 12333); (12337, 12341); (12347, 12347); (12441, 12446);
   (12540, 12542); (40981, 40981); (42232, 42237); (42508, 42508); (42607, 42610);
   (42612, 42621); (42623, 42623); (42652, 42655); (42736, 42737); (42752, 42785);
   (42864, 42864); (42888, 42890); (42994, 42996); (43000, 43001); (43010, 43010);
   (43014, 43014); (43019, 43019); (43045, 43046); (43052, 43052); (43204, 43205);
   (43232, 43249); (43263, 43263); (43302, 43309); (43335, 43345); (43392, 43394);
   (43443, 43443); (43446, 43449); (43452, 43453); (43471, 43471); (43493, 43494);
   (43561, 43566); (43569, 43570); (43573, 43574); (43587, 43587); (43596, 43596);
   (43632, 43632); (43644, 43644); (43696, 43696); (43698, 43700); (43703, 43704);
   (43710, 43711); (43713, 43713); (43741, 43741); (43756, 43757); (43763, 43764);
   (43766, 43766); (43867, 43871); (43881, 43883); (44005, 44005); (44008, 44008);
   (44013, 44013); (64286, 64286); (64434, 64450); (65024, 65039); (65043, 65043);
   (65056, 65071); (65106, 65106); (65109, 65109); (65279, 65279); (65287, 65287);
   (65294, 65294); (65306, 65306); (65342, 65342); (65344, 65344); (65392, 65392);
   (65438, 65439); (65507, 65507); (65529, 65531); (66045, 66045); (66272, 66272);
   (66422, 66426); (67456, 67461); (67463, 67504); (67506, 67514); (68097, 68099);
   (68101, 68102); (68108, 68111); (68152, 68154); (68159, 68159); (68325, 68326);
   (68900, 68903); (69291, 69292); (69446, 69456); (69506, 69509); (69633, 69633);
   (69688, 69702); (69744, 69744); (69747, 69748); (69759, 69761); (69811, 69814);
   (69817, 69818); (69821, 69821); (69826, 69826); (69837, 69837); (69888, 69890);
   (69927, 69931); (69933, 69940); (70003, 70003); (70016, 70017); (70070, 70078);
   (70089, 70092); (70095, 70095); (70191, 70193); (70196, 70196); (70198, 70199);
   (70206, 70206); (70367, 70367); (70371, 70378); (70400, 70401); (70459, 70460);
   (70464, 70464); (70502, 70508); (70512, 70516); (70712, 70719); (70722, 70724);
   (70726, 70726); (70750, 70750); (70835, 70840); (70842, 70842); (70847, 70848);
   (70850, 70851); (71090, 71093); (71100, 71101); (71103, 71104); (71132, 71133);
   (71219, 71226); (71229, 71229); (71231, 71232); (71339, 71339); (71341, 71341);
   (71344, 71349); (71351, 71351); (71453, 71455); (71458, 71461); (71463, 71467);
   (71727, 71735); (71737, 71738); (71995, 71996); (71998, 71998); (72003, 72003);
   (72148, 72151); (72154, 72155); (72160, 72160); (72193, 72202); (72243, 72248);
   (72251, 72254); (72263, 72263); (72273, 72278); (72281, 72283); (72330, 72342);
   (72344, 72345); (72752, 72758); (72760, 72765); (72767, 72767); (72850, 72871);
   (72874, 72880); (72882, 72883); (72885, 72886); (73009, 73014); (73018, 73018);
   (73020, 73021); (73023, 73029); (73031, 73031); (73104, 73105); (73109, 73109);
   (73111, 73111); (73459, 73460); (78896, 78904); (92912, 92916); (92976, 92982);
   (92992, 92995); (94031, 94031); (94095, 94111); (94176, 94177); (94179, 94180);
   (110576, 110579); (110581, 110587); (110589, 110590); (113821, 113822); (113824, 113827);
   (118528, 118573); (118576, 118598); (119143, 119145); (119155, 119170); (119173, 119179);
   (119210, 119213); (119362, 119364); (121344, 121398); (121403, 121452); (121461, 121461);
   (121476, 121476); (121499, 121503); (121505, 121519); (122880, 122886); (122888, 122904);
   (122907, 122913); (122915, 122916); (122918, 122922); (123184, 123197); (123566, 123566);
   (123628, 123631); (125136, 125142); (125252, 125259); (127995, 127999); (917505, 917505);
   (917536, 917631); (917760, 917999)]%Z.

(** The cased code points that are not case-ignorable. *)
Definition cased : list (Z * Z) :=
  [(65, 90); (97, 122); (170, 170); (181, 181); (186, 186);
   (192, 214); (216, 246); (248, 442); (444, 447); (452, 659);
   (661, 687); (880, 883); (886, 887); (891, 893); (895, 895);
   (902, 902); (904, 906); (908, 908); (910, 929); (931, 1013);
   (1015, 1153); (1162, 1327); (1329, 1366); (1376, 1416); (4256, 4293);
   (4295, 4295); (4301, 4301); (4304, 4346); (4349, 4351); (5024, 5109);
   (5112, 5117); (7296, 7304); (7312, 7354); (7357, 7359); (7424, 7467);
   (7531, 7543); (7545, 7578); (7680, 7957); (7960, 7965); (7968, 8005);
   (8008, 8013); (8016, 8023); (8025, 8025); (8027, 8027); (8029, 8029);
   (8031, 8061); (8064, 8116); (8118, 8124); (8126, 8126); (8130, 8132);
   (8134, 8140); (8144, 8147); (8150, 8155); (8160, 8172); (8178, 8180);
   (8182, 8188); (8450, 8450); (8455, 8455); (8458, 8467); (8469, 8469);
   (8473, 8477); (8484, 8484); (8486, 8486); (8488, 8488); (8490, 8493);
   (8495, 8500); (8505, 8505); (8508, 8511); (8517, 8521); (8526, 8526);
   (8544, 8575); (8579, 8580); (9398, 9449); (11264, 11387); (11390, 11492);
   (11499, 11502); (11506, 11507); (11520, 11557); (11559, 11559); (11565, 11565);
   (42560, 42605); (42624, 42651); (42786, 42863); (42865, 42887); (42891, 42894);
   (42896, 42954); (42960, 42961); (42963, 42963); (42965, 42969); (42997, 42998);
   (43002, 43002); (43824, 43866); (43872, 43880); (43888, 43967); (64256, 64262);
   (64275, 64279); (65313, 65338); (65345, 65370); (66560, 66639); (66736, 66771);
   (66776, 66811); (66928, 66938); (66940, 66954); (66956, 66962); (66964, 66965);
   (66967, 66977); (66979, 66993); (66995, 67001); (67003, 67004); (68736, 68786);
   (68800, 68850); (71840, 71903); (93760, 93823); (119808, 119892); (119894, 119964);
   (119966, 119967); (119970, 119970); (119973, 119974); (119977, 119980); (119982, 119993);
   (119995, 119995); (119997, 120003); (120005, 120069); (120071, 120074); (120077, 120084);
   (120086, 120092); (120094, 120121); (120123, 120126); (120128, 120132); (120134, 120134);
   (120138, 120144); (120146, 120485); (120488, 120512); (120514, 120538); (120540, 120570);
   (120572, 120596); (120598, 120628); (120630, 120654); (120656, 120686); (120688, 120712);
   (120714, 120744); (120746, 120770); (120772, 120779); (122624, 122633); (122635, 122654);
   (125184, 125251); (127280, 127305); (127312, 127337); (127344, 127369)]%Z.

Definition is_space (p : Z) : bool := bool_decide (p ∈ whitespace).

Definition in_ranges (t : list (Z * Z)) (p : Z) : bool :=
  existsb (λ r, (r.1 <=? p) && (p <=? r.2))%Z t.

(** The lower-case form of one code point, out of context.  An entry
    [(lo, hi, step, d)] of [lower_table] says that the code points [lo],
    [lo + step], ... up to [hi] are lowered by adding [d].  The capital I
    with a dot (304) is the one code point whose lower-case form is two
    code points. *)
Definition to_lower (p : Z) : list Z :=
  if (p =? 304)%Z then [105; 775]%Z
  else
    match find (λ e, (e.1.1.1 <=? p) && (p <=? e.1.1.2)
                     && ((p - e.1.1.1) mod e.1.2 =? 0))%Z lower_table with
    | Some e => [(p + e.2)%Z]
    | None => [p]
    end.

(** The first code point of a list that is not case-ignorable. *)
Fixpoint next_letter (l : list Z) : option Z :=
  match l with
  | [] => None
  | p :: l' => if in_ranges case_ignorable p then next_letter l' else Some p
  end.

(** A capital sigma (931) is lowered to the final sigma (962) when a cased
    letter precedes it and none follows, case-ignorable code points aside;
    [before] is what precedes it, nearest first. *)
Definition final_sigma (before after : list Z) : bool :=
  match next_letter before with
  | Some p => in_ranges cased p
              && match next_letter after with
                 | Some q => negb (in_ranges cased q)
                 | None => true
                 end
  | None => false
  end.

Fixpoint lower_points (before l : list Z) : list Z :=
  match l with
  | [] => []
  | p :: l' =>
      ((if (p =? 931)%Z
        then [if final_sigma before l' then 962 else 963]%Z
        else to_lower p)
       ++ lower_points (p :: before) l')%list
  end.

(** [str.lower] *)
Definition lower (s : string) : string := encode (lower_points [] (decode s)).

Fixpoint lstrip_points (l : list Z) : list Z :=
  match l with
  | [] => []
  | p :: l' => if is_space p then lstrip_points l' else l
  end.

(** [str.lstrip], [str.rstrip] and [str.strip] with no argument. *)
Definition lstrip (s : string) : string := encode (lstrip_points (decode s)).

Definition rstrip (s : string) : string :=
  encode (reverse (lstrip_points (reverse (decode s)))).

Definition strip (s : string) : string :=
  encode (reverse (lstrip_points (reverse (lstrip_points (decode s))))).

End PyStr.

(** ** Data frames *)

Module Frame.

(** A column label.  Excel headers are mostly text, but a numeric header
    cell gives an integer label. *)
Inductive label : Type :=
| LStr (s : string)
| LInt (z : Z).

#[global] Instance label_eq_dec : EqDecision label.
Proof. solve_decision. Defined.

(** [isinstance(c, str)] *)
Definition is_str (l : label) : bool :=
  match l with LStr _ => true | LInt _ => false end.

(** A cell: missing ([NaN]), a number, or text. *)
Inductive cell : Type :=
| CNull
| CNum (q : Qc)
| CStr (s : string).

#[global] Instance cell_eq_dec : EqDecision cell.
Proof. solve_decision. Defined.

Abbreviation Series := (list cell).

(** A frame is the ordered list of its labelled columns.  Labels may
    repeat: [rename] can produce repeated labels. *)
Abbreviation DataFrame := (list (label * Series)).

Definition labels (df : DataFrame) : list label := df.*1.

(** [df.empty]: no column, or no row. *)
Definition empty (df : DataFrame) : bool :=
  match df with
  | [] => true
  | (_, s) :: _ => bool_decide (length s = 0)
  end.

(** [df.rename(columns=m)] with a [dict] whose keys are strings. *)
Definition rename_label (m : gmap string string) (l : label) : label :=
  match l with
  | LStr s => match m !! s with Some t => LStr t | None => l end
  | LInt _ => l
  end.

Definition rename (m : gmap string string) (df : DataFrame) : DataFrame :=
  prod_map (rename_label m) id <$> df.

(** What [df[name]] evaluates to: [KeyError] when no column has the
    label, a [Series] when exactly one has, a [DataFrame] of all of
    them otherwise. *)
Inductive selection : Type :=
| NoColumn
| OneColumn (s : Series)
| ManyColumns (ss : list Series).

Definition getitem (df : DataFrame) (name : string) : selection :=
  match (filter (λ c, c.1 = LStr name) df).*2 with
  | [] => NoColumn
  | [s] => OneColumn s
  | ss => ManyColumns ss
  end.

(** [df[name] = s] for a label that occurs once. *)
Definition setitem (df : DataFrame) (name : string) (s : Series) : DataFrame :=
  (λ c, if decide (c.1 = LStr name) then (c.1, s) else c) <$> df.

End Frame.

(** ** Type normalizer: [pd.to_numeric(..., errors="coerce")] *)

Module Normalizer.
Import Frame.

Definition digit (a : ascii) : option Z :=
  let n := N_of_ascii a in
  if ((48 <=? n) && (n <=? 57))%N then Some (Z.of_N n - 48)%Z else None.

(** Reads a run of decimal digits: the number read so far, how many digits
    were read, and what follows them. *)
Fixpoint digits (s : string) (acc : Z) (n : nat) : Z * nat * string :=
  match s with
  | EmptyString => (acc, n, s)
  | String a s' =>
      match digit a with
      | Some d => digits s' (10 * acc + d)%Z (S n)
      | None => (acc, n, s)
      end
  end.

(** An optional sign: [true] for a minus. *)
Definition sign (s : string) : bool * string :=
  match s with
  | String "-" s' => (true, s')
  | String "+" s' => (false, s')
  | _ => (false, s)
  end.

(** An optional exponent part, [e] or [E] followed by a signed integer. *)
Definition exponent (s : string) : option Z :=
  match s with
  | EmptyString => Some 0%Z
  | String a s' =>
      if bool_decide (a = "e"%char ∨ a = "E"%char) then
        let '(neg, s1) := sign s' in
        match digits s1 0 0 with
        | (_, O, _) => None
        | (e, _, EmptyString) => Some (if neg then - e else e)%Z
        | _ => None
        end
      else None
  end.

Definition pow10 (e : Z) : Q :=
  match e with
  | Z0 => 1
  | Zpos p => inject_Z (10 ^ Zpos p)
  | Zneg p => 1 # Z.to_pos (10 ^ Zpos p)
  end.

(** The decimal literals the parser of [to_numeric] accepts: blanks
    around, a sign, digits with an optional fraction, an optional
    exponent.  The words pandas reads as float infinities have no
    counterpart in [Qc]; they are outside the model. *)
Definition parse_number (s : string) : option Qc :=
  let '(neg, s1) := sign (PyStr.strip s) in
  let '(i, ni, s2) := digits s1 0 0 in
  let '(m, nf, s3) :=
    match s2 with
    | String "." s2' => digits s2' i 0
    | _ => (i, O, s2)
    end in
  if bool_decide (ni + nf = 0)%nat then None
  else
    match exponent s3 with
    | Some e =>
        let q := (inject_Z m * pow10 (e - Z.of_nat nf))%Q in
        Some (Q2Qc (if neg then - q else q))
    | None => None
    end.

(** One cell under [errors="coerce"]: a number stays, text is parsed and
    becomes missing when it is not a number, missing stays missing. *)
Definition coerce_cell (c : cell) : cell :=
  match c with
  | CNull => CNull
  | CNum q => CNum q
  | CStr s => match parse_number s with Some q => CNum q | None => CNull end
  end.

(** [pd.to_numeric(series, errors="coerce")] *)
Definition to_numeric (s : Series) : Series := coerce_cell <$> s.

End Normalizer.

(** ** Column mapper: lines 34-70 *)

Module Mapper.
Import Frame.

Definition label_str (l : label) : option string :=
  match l with LStr s => Some s | LInt _ => None end.

(** [cols = [c for c in df.columns if isinstance(c, str)]] *)
Definition cols (df : DataFrame) : list string := omap label_str (labels df).

(** [lookup = {c.lower().strip(): c for c in cols}]: the comprehension
    inserts the columns from left to right, a later column replaces an
    earlier one with the same key. *)
Definition lookup (cs : list string) : gmap string string :=
  foldl (λ d c, <[PyStr.strip (PyStr.lower c) := c]> d) ∅ cs.

(** [guess(keys)], with the global [lookup] as a parameter. *)
Fixpoint guess (lk : gmap string string) (keys : list string) : option string :=
  match keys with
  | [] => None
  | k :: keys' =>
      match lk !! k with
      | Some c => Some c
      | None => guess lk keys'
      end
  end.

Definition keys_region : list string := ["región"; "region"; "zona"; "area"].
Definition keys_vendedor : list string :=
  ["vendedor"; "ejecutivo"; "asesor"; "salesperson"; "nombre";
   "nombre vendedor"; "vendedores"].
Definition keys_unid : list string :=
  ["unidades vendidas"; "unidades"; "qty"; "cantidad"].
Definition keys_ventas : list string :=
  ["ventas totales"; "ventas"; "monto"; "sales"; "importe"].
Definition keys_fecha : list string := ["fecha"; "date"].

(** [list.index], for an element of the list. *)
Fixpoint index (x : string) (l : list string) : nat :=
  match l with
  | [] => 0
  | y :: l' => if decide (x = y) then 0 else S (index x l')
  end.

(** [cols.index(g) if g in cols else 0] *)
Definition default_index (cs : list string) (g : option string) : nat :=
  match g with
  | Some c => if decide (c ∈ cs) then index c cs else 0
  | None => 0
  end.

(** What [st.selectbox(options=cols, index=i)] holds before the user
    touches it; with no option to offer it holds [None]. *)
Definition selectbox (options : list string) (i : nat) : option string :=
  options !! i.

(** [bool(x)] for [x] a string or [None]. *)
Definition truthy (x : option string) : bool :=
  match x with
  | Some s => negb (String.eqb s "")
  | None => false
  end.

(** The sidebar's choices. *)
Record Selections : Type := {
  c_region : string;
  c_vend : string;
  c_unid : string;
  c_ventas : string;
  use_fecha : bool;
  c_fecha : option string
}.

(** The choices when the user accepts every pre-selected entry.  [None]
    when the frame has no column with a string label: the select boxes
    have nothing to offer. *)
Definition default_selections (df : DataFrame) : option Selections :=
  let cs := cols df in
  let lk := lookup cs in
  let g_fecha := guess lk keys_fecha in
  r ← selectbox cs (default_index cs (guess lk keys_region));
  v ← selectbox cs (default_index cs (guess lk keys_vendedor));
  u ← selectbox cs (default_index cs (guess lk keys_unid));
  s ← selectbox cs (default_index cs (guess lk keys_ventas));
  let uf := truthy g_fecha in
  Some {| c_region := r; c_vend := v; c_unid := u; c_ventas := s;
          use_fecha := uf;
          c_fecha :=
            if uf
            then selectbox cs
                   match g_fecha with
                   | Some c => if uf && bool_decide (c ∈ cs) then index c cs else 0
                   | None => 0
                   end
            else None |}.

(** Lines 54-55.  The keys of the literal are inserted from left to
    right. *)
Definition rename_map (sel : Selections) : gmap string string :=
  let m := <[c_ventas sel := "ventas"]>
             (<[c_unid sel := "unidades"]>
                (<[c_vend sel := "vendedor"]>
                   (<[c_region sel := "region"]> ∅))) in
  match c_fecha sel with
  | Some f => if use_fecha sel && truthy (Some f) then <[f := "fecha"]> m else m
  | None => m
  end.

(** How the script ends before the filters: an exception of pandas, or
    [st.stop()] after a message. *)
Inductive exn : Type :=
| KeyError (name : string)
| TypeError
| ValueError.

Inductive message : Type :=
| InfoNoData
| ErrorMissing (missing : gset string).

Inductive outcome (A : Type) : Type :=
| Ok (a : A)
| Raise (e : exn)
| Stop (m : message).
Arguments Ok {A} a.
Arguments Raise {A} e.
Arguments Stop {A} m.

Definition bind {A B : Type} (x : outcome A) (f : A → outcome B) : outcome B :=
  match x with
  | Ok a => f a
  | Raise e => Raise e
  | Stop m => Stop m
  end.

Notation "x ← y ;;; z" := (bind y (λ x, z))
  (at level 20, y at level 100, z at level 200, only parsing).

(** [df[name] = f(df[name])].  [df[name]] raises [KeyError] when the
    label is absent; when the label is repeated it is a frame, on which
    [f] raises [many]. *)
Definition coerce (f : Series → Series) (many : exn) (name : string)
    (df : DataFrame) : outcome DataFrame :=
  match getitem df name with
  | NoColumn => Raise (KeyError name)
  | OneColumn s => Ok (setitem df name (f s))
  | ManyColumns _ => Raise many
  end.

(** [needed = {"region","vendedor","unidades","ventas"}] *)
Definition needed : gset string := {[ "region"; "vendedor"; "unidades"; "ventas" ]}.

Section Script.
(** [pd.to_datetime(series, errors="coerce")], which the statements
    below do not look into. *)
Variable to_datetime : Series → Series.

(** Lines 56-70, for the rename map [m]. *)
Definition mapping_with (m : gmap string string) (df : DataFrame) :
    outcome DataFrame :=
  let df := rename m df in
  df ← coerce Normalizer.to_numeric TypeError "unidades" df;;;
  df ← coerce Normalizer.to_numeric TypeError "ventas" df;;;
  df ← (if decide (LStr "fecha" ∈ labels df)
        then coerce to_datetime ValueError "fecha" df
        else Ok df);;;
  let missing := filter (λ c, LStr c ∉ labels df) needed in
  if decide (missing = ∅) then Ok df else Stop (ErrorMissing missing).

(** Lines 54-70. *)
Definition mapping (df : DataFrame) (sel : Selections) : outcome DataFrame :=
  mapping_with (rename_map sel) df.

(** Lines 27-70, for the choices [sel] of the sidebar. *)
Definition run (df : DataFrame) (sel : Selections) : outcome DataFrame :=
  if empty df then Stop InfoNoData else mapping df sel.

(** The same when every pre-selected entry is kept.  When the select
    boxes have nothing to offer each of them holds [None] and the date box
    is not ticked: the rename map is [{None: "ventas"}], which has no text
    key, and the script goes on with it. *)
Definition run_default (df : DataFrame) : option (outcome DataFrame) :=
  match default_selections df with
  | Some sel => Some (run df sel)
  | None => Some (if empty df then Stop InfoNoData else mapping_with ∅ df)
  end.
End Script.

End Mapper.

(** ** The sales table after the mapping *)

Module Sales.
Import Frame.

(** A row of the frame the mapping stage hands on, read on its four
    required columns: [region] and [vendedor] hold whatever the sheet
    held; [unidades] and [ventas] went through [to_numeric] and hold a
    number as NumPy stores it, NaN standing for a missing value.  [num] is
    the type of these numbers. *)
Record Row (num : Type) : Type := {
  region : cell;
  vendedor : cell;
  unidades : num;
  ventas : num
}.
Arguments region {num} _.
Arguments vendedor {num} _.
Arguments unidades {num} _.
Arguments ventas {num} _.

Abbreviation Table num := (list (Row num)).

(** [df[mask]] and [df.loc[mask]] for a Boolean series [mask]. *)
Fixpoint loc {A : Type} (df : list A) (mask : list bool) : list A :=
  match df, mask with
  | r :: df', b :: mask' => if b then r :: loc df' mask' else loc df' mask'
  | _, _ => []
  end.

(** [Series.dropna()] *)
Definition dropna (s : list cell) : list cell := filter (λ c, c ≠ CNull) s.

(** [Series.unique()]: the distinct values, in order of first
    appearance. *)
Fixpoint unique {A : Type} `{EqDecision A} (l : list A) : list A :=
  match l with
  | [] => []
  | x :: l' => x :: filter (λ y, y ≠ x) (unique l')
  end.

End Sales.

(** ** Filters: lines 75-88 *)

Module Filters.
Import Frame Sales.

(** Order of Python strings: code point by code point, which on UTF-8
    is byte by byte. *)
Definition str_le (a b : string) : Prop := String.leb a b.

#[global] Instance str_le_dec : RelDecision str_le.
Proof. intros a b. unfold str_le. apply _. Defined.

(** [sorted(...)] on a list of strings. *)
Definition sorted (l : list string) : list string := merge_sort str_le l.

Section Astype.
Context {num : Type}.
(** [str(x)] for a number [x], as [astype(str)] applies it.  It depends
    on how pandas stored the number (1 or 1.0), which [Qc] does not
    record. *)
Variable str_num : Qc → string.

(** [Series.astype(str)] on one cell; a missing value becomes the text
    [nan]. *)
Definition astype_str (c : cell) : string :=
  match c with
  | CNull => "nan"
  | CNum q => str_num q
  | CStr s => s
  end.

(** [sorted(s.dropna().astype(str).unique().tolist())] *)
Definition options (s : list cell) : list string :=
  sorted (unique (astype_str <$> dropna s)).

Definition reg_opts (df : Table num) : list string :=
  "(Todas)" :: options (region <$> df).

(** Line 78. *)
Definition origen (df : Table num) (reg_sel : string) : Table num :=
  if decide (reg_sel = "(Todas)") then df
  else loc df ((λ r, bool_decide (astype_str (region r) = reg_sel)) <$> df).

Definition vend_opts (df : Table num) (reg_sel : string) : list string :=
  "(Todos)" :: options (vendedor <$> origen df reg_sel).

(** Lines 85-87: the mask starts all true and is narrowed by [&=]. *)
Definition mask (df : Table num) (reg_sel vend_sel : string) : list bool :=
  let mask := replicate (length df) true in
  let mask :=
    if decide (reg_sel ≠ "(Todas)")
    then zip_with andb mask
           ((λ r, bool_decide (astype_str (region r) = reg_sel)) <$> df)
    else mask in
  let mask :=
    if decide (vend_sel ≠ "(Todos)")
    then zip_with andb mask
           ((λ r, bool_decide (astype_str (vendedor r) = vend_sel)) <$> df)
    else mask in
  mask.

(** Line 88: [df_f = df.loc[mask].copy()] *)
Definition df_f (df : Table num) (reg_sel vend_sel : string) : Table num :=
  loc df (mask df reg_sel vend_sel).

End Astype.

End Filters.

(** ** Arithmetic of the numeric columns *)

Module Arithmetic.

(** What the script computes with the numbers of [unidades] and [ventas].
    The operations are those of pandas and NumPy on the values of a
    numeric column; [Numpy] below gives them on int64 and float64
    values. *)
Class Arith (num : Type) : Type := {
  (** [Series.sum()], which skips NaN *)
  series_sum : list num → num;
  (** the entry of one group under [groupby(...).agg(c=(col, "sum"))],
      from the values of the rows of the group in their order *)
  group_sum : list num → num;
  (** [x == 0], and [not x] *)
  is_zero : num → bool;
  (** [x / y] *)
  truediv : num → num → num;
  (** [x * y] *)
  times : num → num → num;
  (** a Python integer literal *)
  of_int : Z → num;
  (** [.round(2)] *)
  round2 : num → num
}.

End Arithmetic.

(** ** Aggregator: lines 109-116 *)

Module Aggregator.
Import Frame Sales Arithmetic.

(** The argument [by] of [agg]: the radio buttons offer two values. *)
Inductive dim : Type := ByRegion | ByVendedor.

Definition key {num : Type} (by_ : dim) (r : Row num) : cell :=
  match by_ with
  | ByRegion => region r
  | ByVendedor => vendedor r
  end.

(** The order [groupby] sorts its keys in: numbers by value, text by code
    point, numbers before text. *)
Definition key_le (a b : cell) : Prop :=
  match a, b with
  | CNum x, CNum y => (x <= y)%Qc
  | CNum _, _ => True
  | CStr _, CNum _ => False
  | CStr s, CStr t => String.leb s t
  | CStr _, CNull => True
  | CNull, CNull => True
  | CNull, _ => False
  end.

#[global] Instance key_le_dec : RelDecision key_le.
Proof.
  intros [|x|s] [|y|t]; simpl; apply _.
Defined.

(** A row of the frame [agg] returns. *)
Record AggRow (num : Type) : Type := {
  a_key : cell;
  a_unidades : num;
  a_ventas : num;
  pct_ventas : num
}.
Arguments a_key {num} _.
Arguments a_unidades {num} _.
Arguments a_ventas {num} _.
Arguments pct_ventas {num} _.

Section Agg.
Context {num : Type} `{!Arith num}.

(** [df_f.groupby(by, dropna=True).agg(unidades=("unidades","sum"),
    ventas=("ventas","sum")).reset_index()]: rows with a missing key are
    dropped, the keys are sorted, each key gets the sums over its rows. *)
Definition groupby_sum (by_ : dim) (df_f : Table num) : list (cell * num * num) :=
  let kept := filter (λ r, key by_ r ≠ CNull) df_f in
  let keys := merge_sort key_le (unique (key by_ <$> kept)) in
  (λ k, let rows := filter (λ r, key by_ r = k) kept in
        (k, group_sum (unidades <$> rows), group_sum (ventas <$> rows))) <$> keys.

(** [agg(by)], with the global [df_f] as a parameter. *)
Definition agg (by_ : dim) (df_f : Table num) : list (AggRow num) :=
  let g := groupby_sum by_ df_f in
  let total := series_sum g.*2 in
  (λ '(k, u, v),
     {| a_key := k; a_unidades := u; a_ventas := v;
        pct_ventas := if is_zero total then of_int 0
                      else round2 (times (truediv v total) (of_int 100)) |}) <$> g.

End Agg.

End Aggregator.

(** ** Metrics and salesperson detail: lines 91-97 and 146-157 *)

Module Report.
Import Frame Sales Filters Arithmetic.

Section Metrics.
Context {num : Type} `{!Arith num}.

(** Line 92. *)
Definition registros (df_f : Table num) : nat := length df_f.

(** Line 93, before [int]. *)
Definition metric_unidades (df_f : Table num) : num :=
  series_sum (unidades <$> df_f).

(** Line 94, before formatting. *)
Definition metric_ventas (df_f : Table num) : num :=
  series_sum (ventas <$> df_f).

(** Line 96. *)
Definition pct_global (df df_f : Table num) : num :=
  if is_zero (series_sum (ventas <$> df)) then of_int 0
  else times (truediv (series_sum (ventas <$> df_f))
                      (series_sum (ventas <$> df))) (of_int 100).

Variable str_num : Qc → string.

(** Line 146. *)
Definition vend_list (df_f : Table num) : list string :=
  options str_num (vendedor <$> df_f).

(** Line 151. *)
Definition df_v (df_f : Table num) (vend_det : string) : Table num :=
  loc df_f ((λ r, bool_decide (astype_str str_num (vendedor r) = vend_det)) <$> df_f).

(** Line 153, before [int]. *)
Definition detail_unidades (df_f : Table num) (vend_det : string) : num :=
  series_sum (unidades <$> df_v df_f vend_det).

(** Line 154, before formatting. *)
Definition detail_ventas (df_f : Table num) (vend_det : string) : num :=
  series_sum (ventas <$> df_v df_f vend_det).

(** Line 156. *)
Definition detail_pct (df_f : Table num) (vend_det : string) : num :=
  if is_zero (series_sum (ventas <$> df_f)) then of_int 0
  else times (truediv (series_sum (ventas <$> df_v df_f vend_det))
                      (series_sum (ventas <$> df_f))) (of_int 100).

End Metrics.

End Report.

(** ** Table loader: lines 19-30 *)

Module Loader.
Import Frame.

(** [load_df(uploaded_file)].  [uploaded] is the sheet [pd.read_excel]
    reads from the upload, when there is one; [on_disk] the sheet it reads
    from [vendedores.xlsx], when that file exists.  A file that cannot be
    read makes [read_excel] raise, which is not modelled. *)
Definition load_df (uploaded on_disk : option DataFrame) : DataFrame :=
  match uploaded with
  | Some df => df
  | None =>
      match on_disk with
      | Some df => df
      | None => []
      end
  end.

End Loader.

(** ** NumPy arithmetic on int64 and float64 *)

Module Numpy.
Import Arithmetic.

(** A value of a numeric column: an int64, or a float64 (a binary64
    float of the kernel; NaN is the missing value).  A column holds values
    of one kind: [to_numeric] gives int64 when every cell is an integer and
    float64 otherwise. *)
Inductive number : Type :=
| I64 (z : Z)
| F64 (f : float).

(** The int64 of an integer: arithmetic on int64 wraps around. *)
Definition wrap64 (z : Z) : Z := ((z + 2 ^ 63) mod 2 ^ 64 - 2 ^ 63)%Z.

(** The sum of int64 values, accumulated from left to right. *)
Definition int_sum (l : list Z) : Z := foldl (λ acc z, wrap64 (acc + z)) 0%Z l.

(** The float64 nearest to an integer, ties to even. *)
Definition f64_of_int (z : Z) : float :=
  SF2Prim (binary_normalize prec emax z 0 false).

Definition to_f64 (x : number) : float :=
  match x with
  | I64 z => f64_of_int z
  | F64 f => f
  end.

(** The values of an int64 column. *)
Definition ints (l : list number) : option (list Z) :=
  mapM (λ x, match x with I64 z => Some z | F64 _ => None end) l.

(** NumPy adds the float64 values of an array pairwise: fewer than 8
    values from left to right; up to 128 values with 8 accumulators, which
    take every eighth value each and are added in pairs, the values left
    over being added at the end; more than 128 values by halves. *)
Definition sum8 (r : list float) : float :=
  match r with
  | [r0; r1; r2; r3; r4; r5; r6; r7] =>
      (((r0 + r1) + (r2 + r3)) + ((r4 + r5) + (r6 + r7)))%float
  | _ => 0%float
  end.

Fixpoint add_blocks (blocks : nat) (r a : list float) : list float * list float :=
  match blocks with
  | O => (r, a)
  | S n => add_blocks n (zip_with PrimFloat.add r (take 8 a)) (drop 8 a)
  end.

Definition block_sum (a : list float) : float :=
  let '(r, rest) := add_blocks (length a / 8 - 1) (take 8 a) (drop 8 a) in
  foldl PrimFloat.add (sum8 r) rest.

Fixpoint pairwise_sum (fuel : nat) (a : list float) : float :=
  let n := length a in
  if (n <? 8)%nat then foldl PrimFloat.add neg_zero a
  else if (n <=? 128)%nat then block_sum a
  else
    match fuel with
    | O => block_sum a
    | S fuel' =>
        let n2 := (n / 2 - (n / 2) mod 8)%nat in
        (pairwise_sum fuel' (take n2 a) + pairwise_sum fuel' (drop n2 a))%float
    end.

(** [nansum]: NaN counts as 0. *)
Definition nansum (a : list float) : float :=
  pairwise_sum (length a) ((λ f, if is_nan f then 0%float else f) <$> a).

(** [Series.sum()] *)
Definition np_series_sum (l : list number) : number :=
  match ints l with
  | Some zs => I64 (int_sum zs)
  | None => F64 (nansum (to_f64 <$> l))
  end.

(** One step of the compensated sum of [groupby]: the sum so far and its
    compensation, then a value; NaN is skipped. *)
Definition kahan (st : float * float) (val : float) : float * float :=
  if is_nan val then st
  else
    let y := (val - st.2)%float in
    let t := (st.1 + y)%float in
    let c := (t - st.1 - y)%float in
    (t, if is_nan c then 0%float else c).

(** The sum of one group under [groupby]. *)
Definition np_group_sum (l : list number) : number :=
  match ints l with
  | Some zs => I64 (int_sum zs)
  | None => F64 (foldl kahan (0%float, 0%float) (to_f64 <$> l)).1
  end.

Definition np_is_zero (x : number) : bool :=
  match x with
  | I64 z => (z =? 0)%Z
  | F64 f => (f =? 0)%float
  end.

(** True division gives a float64, also of two int64. *)
Definition np_truediv (x y : number) : number := F64 (to_f64 x / to_f64 y).

Definition np_times (x y : number) : number :=
  match x, y with
  | I64 a, I64 b => I64 (wrap64 (a * b))
  | _, _ => F64 (to_f64 x * to_f64 y)
  end.

(** Rounding of a float64 to an integer, ties to even: below 2^52 in
    absolute value, adding and subtracting 2^52 rounds; from 2^52 on
    every float64 is an integer. *)
Definition rint (x : float) : float :=
  if (abs x <? 4503599627370496)%float then
    if (x <? 0)%float
    then (- ((- x + 4503599627370496) - 4503599627370496))%float
    else ((x + 4503599627370496) - 4503599627370496)%float
  else x.

(** [round(2)]: scale by 100, round to an integer, scale back. *)
Definition np_round2 (x : number) : number :=
  match x with
  | I64 z => I64 z
  | F64 f => F64 (rint (f * 100) / 100)
  end.

#[global] Instance numpy : Arith number := {|
  series_sum := np_series_sum;
  group_sum := np_group_sum;
  is_zero := np_is_zero;
  truediv := np_truediv;
  times := np_times;
  of_int := I64;
  round2 := np_round2
|}.

End Numpy.

(** ** Notions the statements below use *)

Module Spec.
Import Frame Mapper Sales Filters Arithmetic Aggregator Numpy.

(** The key under which [lookup] files a column. *)
Definition normalized (c : string) : string := PyStr.strip (PyStr.lower c).

(** [guess] on the columns of a frame. *)
Definition guess_role (keys : list string) (df : DataFrame) : option string :=
  guess (lookup (cols df)) keys.

(** The role assignments of the sidebar, in the order the rename map
    receives them: region, vendedor, unidades, ventas, fecha. *)
Definition assignments (sel : Selections) : list (string * string) :=
  ([(c_region sel, "region"); (c_vend sel, "vendedor");
    (c_unid sel, "unidades"); (c_ventas sel, "ventas")]
   ++ match c_fecha sel with
     | Some f => if use_fecha sel && truthy (Some f) then [(f, "fecha")] else []
      | None => []
      end)%list.

(** The canonical name of the last role assigned to the raw column [c]. *)
Definition last_assigned (c : string) (l : list (string * string)) : option string :=
  last (filter (λ p, p.1 = c) l).*2.

(** The required canonical columns a frame lacks. *)
Definition absent (df : DataFrame) : gset string :=
  filter (λ c, LStr c ∉ labels df) needed.

(** A frame with the headers of the missing-column scenario. *)
Definition zona_frame (z n u : Series) : DataFrame :=
  [(LStr "Zona", z); (LStr "Nombre", n); (LStr "Unidades", u)].

(** A stand-in for [to_datetime] in runs that never reach a date
    column. *)
Definition keep_cells : Series → Series := λ s, s.

(** The retention rule of the filter engine, in the words of the
    specification. *)
Definition retained {num : Type} (str_num : Qc → string) (reg_sel vend_sel : string)
    (r : Row num) : Prop :=
  (reg_sel = "(Todas)" ∨ astype_str str_num (region r) = reg_sel)
  ∧ (vend_sel = "(Todos)" ∨ astype_str str_num (vendedor r) = vend_sel).

#[global] Instance retained_dec {num : Type} str_num reg_sel vend_sel (r : Row num) :
  Decision (retained str_num reg_sel vend_sel r).
Proof. unfold retained. apply _. Defined.

(** The entry of [mask] for one row. *)
Definition row_mask {num : Type} (str_num : Qc → string) (reg_sel vend_sel : string)
    (r : Row num) : bool :=
  (if decide (reg_sel ≠ "(Todas)")
   then bool_decide (astype_str str_num (region r) = reg_sel) else true)
  && (if decide (vend_sel ≠ "(Todos)")
      then bool_decide (astype_str str_num (vendedor r) = vend_sel) else true).

(** The rows the aggregation does not exclude: those with a value in the
    grouping column. *)
Definition kept {num : Type} (by_ : dim) (df : Table num) : Table num :=
  filter (λ r, key by_ r ≠ CNull) df.

(** The rows of a table whose grouping value is [k]. *)
Definition group_rows {num : Type} (by_ : dim) (k : cell) (df : Table num) :
    Table num :=
  filter (λ r, key by_ r = k) df.

(** The keys of the groups, as [groupby] orders them. *)
Definition group_keys {num : Type} (by_ : dim) (df : Table num) : list cell :=
  merge_sort key_le (unique (key by_ <$> kept by_ df)).

(** The total [agg] divides by: the sum of the [ventas] column of the
    grouped frame. *)
Definition agg_total {num : Type} `{!Arith num} (by_ : dim) (df : Table num) : num :=
  series_sum (a_ventas <$> agg by_ df).

(** An int64 value. *)
Definition is_int64 (x : number) : Prop :=
  ∃ z, x = I64 z ∧ (- 2 ^ 63 ≤ z < 2 ^ 63)%Z.

(** The integer an int64 value holds. *)
Definition int_of (x : number) : Z :=
  match x with
  | I64 z => z
  | F64 _ => 0%Z
  end.

(** The sum of the integers of a column, as an integer. *)
Definition exact_sum (l : list number) : Z := foldr Z.add 0%Z (int_of <$> l).

(** A stand-in for [str] on numbers in tables that hold none in their
    region and salesperson columns. *)
Definition no_numbers : Qc → string := λ _, "".

(** The example table of the specification. *)
Definition example_table : Table number :=
  [ {| region := CStr "North"; vendedor := CStr "Ana";
       unidades := I64 10; ventas := I64 100 |};
    {| region := CStr "North"; vendedor := CStr "Beto";
       unidades := I64 5; ventas := I64 50 |};
    {| region := CStr "South"; vendedor := CStr "Ana";
       unidades := I64 2; ventas := I64 20 |} ].

(** Sales in float64 that cancel: 1e16 and -1e16 in the region [A],
    0.5 in the region [B]. *)
Definition cancelling_table : Table number :=
  [ {| region := CStr "A"; vendedor := CStr "Ana";
       unidades := I64 1; ventas := F64 1e16 |};
    {| region := CStr "B"; vendedor := CStr "Beto";
       unidades := I64 1; ventas := F64 0.5 |};
    {| region := CStr "A"; vendedor := CStr "Caro";
       unidades := I64 1; ventas := F64 (-1e16) |} ].

(** Two sales of 2^62 in int64, in two regions. *)
Definition overflow_table : Table number :=
  [ {| region := CStr "A"; vendedor := CStr "Ana";
       unidades := I64 1; ventas := I64 (2 ^ 62) |};
    {| region := CStr "B"; vendedor := CStr "Beto";
       unidades := I64 1; ventas := I64 (2 ^ 62) |} ].

End Spec.

(** ** Further notions for the statements *)

Module Terms.
Import Frame Mapper Sales.

(** How many columns of a frame carry the label [name]. *)
Definition occurrences (name : string) (df : DataFrame) : nat :=
  length (filter (λ l, l = LStr name) (labels df)).

(** A sheet with the columns [Region], [Vendedor], [Unidades], [Ventas],
    one row. *)
Definition plain_frame : DataFrame :=
  [(LStr "Region", [CStr "Norte"]); (LStr "Vendedor", [CStr "Ana"]);
   (LStr "Unidades", [CStr "3"]); (LStr "Ventas", [CStr "10.5"])].

(** The columns of a sheet one by one for the four roles. *)
Definition plain_selections : Selections :=
  {| c_region := "Region"; c_vend := "Vendedor"; c_unid := "Unidades";
     c_ventas := "Ventas"; use_fecha := false; c_fecha := None |}.

End Terms.

Import Frame Mapper Sales Filters Arithmetic Aggregator Numpy Spec.

(** * Column mapper *)

Section MapperFacts.
Implicit Types (cs keys : list string) (lk : gmap string string).

Lemma lookup_foldl cs lk k :
  foldl (λ d c, <[normalized c := c]> d) lk cs !! k
  = match last (filter (λ c, normalized c = k) cs) with
    | Some c => Some c
    | None => lk !! k
    end.
Proof.
  revert lk. induction cs as [|c cs IH] using rev_ind; intros lk; [done|].
  rewrite foldl_app, filter_app. simpl.
  rewrite filter_cons, filter_nil.
  destruct (decide (normalized c = k)) as [<-|Hne].
  - by rewrite last_snoc, lookup_insert_eq.
  - rewrite app_nil_r, lookup_insert_ne by done. apply IH.
Qed.

Lemma lookup_last cs k :
  lookup cs !! k = last (filter (λ c, normalized c = k) cs).
Proof.
  unfold lookup. change (λ d c, <[PyStr.strip (PyStr.lower c):=c]> d)
    with (λ (d : gmap string string) c, <[normalized c:=c]> d).
  rewrite lookup_foldl, lookup_empty. by destruct (last _).
Qed.

Lemma lookup_None cs k :
  lookup cs !! k = None ↔ ∀ c, c ∈ cs → normalized c ≠ k.
Proof.
  rewrite lookup_last, last_None. split.
  - intros Hnil c Hc Heq.
    assert (c ∈ filter (λ c, normalized c = k) cs) as Hin
      by (apply list_elem_of_filter; done).
    rewrite Hnil in Hin. by apply not_elem_of_nil in Hin.
  - intros Hall. apply elem_of_nil_inv. intros c Hc.
    apply list_elem_of_filter in Hc as [Heq Hc]. by apply (Hall c).
Qed.

Lemma lookup_Some_elem cs k c :
  lookup cs !! k = Some c → c ∈ cs ∧ normalized c = k.
Proof.
  rewrite lookup_last. intros Hl.
  assert (c ∈ filter (λ c, normalized c = k) cs) as Hin.
  { apply last_Some in Hl as [l' ->]. set_solver. }
  apply list_elem_of_filter in Hin. tauto.
Qed.

Lemma guess_Some lk keys c :
  guess lk keys = Some c ↔
  ∃ ks1 k ks2, keys = (ks1 ++ k :: ks2)%list
               ∧ (∀ k', k' ∈ ks1 → lk !! k' = None)
               ∧ lk !! k = Some c.
Proof.
  induction keys as [|k keys IH]; simpl.
  - split; [done|]. intros (ks1 & k & ks2 & Heq & _). by destruct ks1.
  - destruct (lk !! k) as [c'|] eqn:Hk.
    + split.
      * intros [= ->]. exists [], k, keys. (split; [done|split; [|done]]).
        intros k' Hk'. by apply not_elem_of_nil in Hk'.
      * intros (ks1 & k1 & ks2 & Heq & Hpre & Hhit).
        destruct ks1 as [|k0 ks1]; simplify_eq/=; try congruence.
        specialize (Hpre k0 ltac:(left)). congruence.
    + rewrite IH. split.
      * intros (ks1 & k1 & ks2 & -> & Hpre & Hhit).
        exists (k :: ks1), k1, ks2. (split; [done|split; [|done]]).
        intros k' [->|Hk']%elem_of_cons; auto.
      * intros (ks1 & k1 & ks2 & Heq & Hpre & Hhit).
        destruct ks1 as [|k0 ks1]; simplify_eq/=; try congruence.
        exists ks1, k1, ks2. (split; [done|split; [|done]]).
        intros k' Hk'. apply Hpre. by right.
Qed.

Lemma guess_None lk keys :
  guess lk keys = None ↔ ∀ k, k ∈ keys → lk !! k = None.
Proof.
  induction keys as [|k keys IH]; simpl.
  - split; [|done]. intros _ k Hk. by apply not_elem_of_nil in Hk.
  - destruct (lk !! k) as [c'|] eqn:Hk.
    + split; [done|]. intros Hall. specialize (Hall k ltac:(left)). congruence.
    + rewrite IH. split.
      * intros Hall k' [->|Hk']%elem_of_cons; auto.
      * intros Hall k' Hk'. apply Hall. by right.
Qed.

Lemma cols_elem (df : DataFrame) c : c ∈ cols df ↔ LStr c ∈ labels df.
Proof.
  unfold cols. rewrite list_elem_of_omap. split.
  - intros ([s|z] & Hin & Heq); simplify_eq/=. done.
  - intros Hin. by exists (LStr c).
Qed.

Lemma cols_only_str (df : DataFrame) :
  cols (filter (λ c, is_str c.1) df) = cols df.
Proof.
  unfold cols, labels. induction df as [|[[s|z] col] df IH]; [done| |].
  - rewrite filter_cons. simpl. f_equal. exact IH.
  - rewrite filter_cons. simpl. exact IH.
Qed.

End MapperFacts.

(** The guesser on keywords taken as written: a keyword hits a column when
    it is equal to the column name lower-cased and trimmed. *)
Lemma guess_role_verbatim (keys : list string) (df : DataFrame) :
  guess_role keys (filter (λ c, is_str c.1) df) = guess_role keys df
  ∧ (∀ c, guess_role keys df = Some c ↔
       ∃ ks1 k ks2,
         keys = (ks1 ++ k :: ks2)%list
         ∧ (∀ k' c', k' ∈ ks1 → LStr c' ∈ labels df → normalized c' ≠ k')
         ∧ last (filter (λ c', normalized c' = k) (cols df)) = Some c)
  ∧ (guess_role keys df = None ↔
       ∀ k c, k ∈ keys → LStr c ∈ labels df → normalized c ≠ k).
Proof.
  unfold guess_role. split_and!.
  - by rewrite cols_only_str.
  - intros c. rewrite guess_Some.
    split; intros (ks1 & k & ks2 & -> & Hpre & Hhit); exists ks1, k, ks2.
    + split; [done|]. split; [|by rewrite <- lookup_last].
      intros k' c' Hk' Hc'%cols_elem.
      by apply (proj1 (lookup_None (cols df) k') (Hpre k' Hk')).
    + split; [done|]. split; [|by rewrite lookup_last].
      intros k' Hk'. apply lookup_None. intros c' Hc'%cols_elem. eauto.
  - rewrite guess_None. split.
    + intros Hall k c Hk Hc%cols_elem.
      by apply (proj1 (lookup_None (cols df) k) (Hall k Hk)).
    + intros Hall k Hk. apply lookup_None. intros c Hc%cols_elem. eauto.
Qed.

(** The keywords of the five lists of lines 41-45 are lower-case and
    trimmed. *)
Lemma keywords_normalized :
  Forall (λ k, normalized k = k)
    (keys_region ++ keys_vendedor ++ keys_unid ++ keys_ventas ++ keys_fecha)%list.
Proof. repeat (apply Forall_cons; split; [by vm_compute|]). apply Forall_nil_2. Qed.

(** C7.  For a list of keywords that are lower-case and trimmed, as the
    five lists of the script are, the guesser looks only at the
    string-named columns; a keyword matches a column when the two are
    equal once lower-cased and trimmed; the first keyword of the list that
    matches some column decides, and the guesser returns a column that
    matches it (the last one, when several do); it returns nothing exactly
    when no keyword matches any column. *)
Theorem guess_role_first_keyword (keys : list string) (df : DataFrame) :
  Forall (λ k, normalized k = k) keys →
  guess_role keys (filter (λ c, is_str c.1) df) = guess_role keys df
  ∧ (∀ c, guess_role keys df = Some c ↔
       ∃ ks1 k ks2,
         keys = (ks1 ++ k :: ks2)%list
         ∧ (∀ k' c', k' ∈ ks1 → LStr c' ∈ labels df →
                     normalized c' ≠ normalized k')
         ∧ last (filter (λ c', normalized c' = normalized k) (cols df)) = Some c)
  ∧ (∀ c, guess_role keys df = Some c →
       LStr c ∈ labels df ∧ ∃ k, k ∈ keys ∧ normalized c = normalized k)
  ∧ (guess_role keys df = None ↔
       ∀ k c, k ∈ keys → LStr c ∈ labels df → normalized c ≠ normalized k).
Proof.
  intros Hkeys. rewrite Forall_forall in Hkeys.
  destruct (guess_role_verbatim keys df) as (Hstr & Hsome & Hnone).
  assert (∀ c, guess_role keys df = Some c ↔
            ∃ ks1 k ks2,
              keys = (ks1 ++ k :: ks2)%list
              ∧ (∀ k' c', k' ∈ ks1 → LStr c' ∈ labels df →
                          normalized c' ≠ normalized k')
              ∧ last (filter (λ c', normalized c' = normalized k) (cols df))
                = Some c) as Hsome'.
  { intros c. rewrite Hsome.
    split; intros (ks1 & k & ks2 & -> & Hpre & Hhit); exists ks1, k, ks2.
    - split; [done|]. split.
      + intros k' c' Hk' Hc'. rewrite (Hkeys k') by (rewrite elem_of_app; tauto).
        by apply Hpre.
      + rewrite (Hkeys k) by (rewrite elem_of_app, elem_of_cons; tauto). done.
    - split; [done|]. split.
      + intros k' c' Hk' Hc'. rewrite <- (Hkeys k') by (rewrite elem_of_app; tauto).
        by apply Hpre.
      + rewrite (Hkeys k) in Hhit by (rewrite elem_of_app, elem_of_cons; tauto).
        done. }
  split; [exact Hstr|]. split; [exact Hsome'|]. split.
  - intros c (ks1 & k & ks2 & -> & _ & Hhit)%Hsome'.
    apply last_Some_elem_of, list_elem_of_filter in Hhit as [Hk Hin].
    split; [by apply cols_elem|]. exists k. split; [|done].
    rewrite elem_of_app, elem_of_cons. tauto.
  - rewrite Hnone. split.
    + intros Hall k c Hk Hc. rewrite (Hkeys k Hk). by apply Hall.
    + intros Hall k c Hk Hc. rewrite <- (Hkeys k Hk). by apply Hall.
Qed.

Lemma guess_role_first_keyword_witness :
  Forall (λ k, normalized k = k) keys_region
  ∧ guess_role keys_region
      (filter (λ c, is_str c.1) [(LStr " REGIÓN", []); (LInt 7, []); (LStr "Zona", [])])
    = guess_role keys_region [(LStr " REGIÓN", []); (LInt 7, []); (LStr "Zona", [])]
  ∧ (guess_role keys_region [(LStr " REGIÓN", []); (LInt 7, []); (LStr "Zona", [])]
     = None ↔
     ∀ k c, k ∈ keys_region
            → LStr c ∈ labels [(LStr " REGIÓN", []); (LInt 7, []); (LStr "Zona", [])]
            → normalized c ≠ normalized k).
Proof.
  assert (Forall (λ k, normalized k = k) keys_region) as H
    by (repeat (apply Forall_cons; split; [by vm_compute|]); apply Forall_nil_2).
  split; [exact H|].
  destruct (guess_role_first_keyword keys_region
              [(LStr " REGIÓN", []); (LInt 7, []); (LStr "Zona", [])] H)
    as (H1 & _ & _ & H4).
  split; [exact H1|exact H4].
Defined.

(** The script's own keyword lists on headers in capitals, with blanks
    around, with a no-break space (code point 160) at the end: the first
    keyword of the list that some header matches decides. *)
Example guess_role_normalizes :
  guess_role keys_region [(LStr " REGIÓN", []); (LInt 7, []); (LStr "Zona", [])]
  = Some " REGIÓN"
  ∧ guess_role keys_region [(LStr "Zona", []); (LStr "Region ", [])]
    = Some "Region "
  ∧ guess_role keys_region [(LStr ("Zona" ++ PyStr.encode [160%Z]), [])]
    = Some ("Zona" ++ PyStr.encode [160%Z])
  ∧ guess_role keys_ventas [(LStr "VENTAS TOTALES", []); (LStr "Ventas", [])]
    = Some "VENTAS TOTALES"
  ∧ guess_role keys_ventas [(LStr "Venta", []); (LStr "Total", [])] = None.
Proof. by vm_compute. Qed.

(** The guesses of the script on the headers [Zona], [Nombre],
    [Unidades]. *)
Example guess_zona_frame (z n u : Series) :
  guess_role keys_region (zona_frame z n u) = Some "Zona"
  ∧ guess_role keys_vendedor (zona_frame z n u) = Some "Nombre"
  ∧ guess_role keys_unid (zona_frame z n u) = Some "Unidades"
  ∧ guess_role keys_ventas (zona_frame z n u) = None
  ∧ guess_role keys_fecha (zona_frame z n u) = None.
Proof. by vm_compute. Qed.

(** * The mapping stage *)

Lemma default_selections_zona (z n u : Series) :
  default_selections (zona_frame z n u)
  = Some {| c_region := "Zona"; c_vend := "Nombre"; c_unid := "Unidades";
            c_ventas := "Zona"; use_fecha := false; c_fecha := None |}.
Proof. by vm_compute. Qed.

(** A sheet without any text header: the select boxes have nothing to
    offer, the renaming changes nothing, and line 58 raises [KeyError]. *)
Example run_default_without_text_header (to_datetime : Series → Series) :
  default_selections [(LInt 2023, [CStr "a"]); (LInt 2024, [CStr "b"])] = None
  ∧ run_default to_datetime [(LInt 2023, [CStr "a"]); (LInt 2024, [CStr "b"])]
    = Some (Raise (KeyError "unidades")).
Proof. split; reflexivity. Qed.

(** C2 (amended).  On a non-empty sheet with the headers [Zona],
    [Nombre], [Unidades] and the pre-selected entries kept, the mapping
    stops with the error for missing columns, and the column it names is
    [region]: the select box for the sales falls back to the first column,
    [Zona], which the rename map then turns into [ventas]. *)
Theorem zona_frame_reports_region (to_datetime : Series → Series)
    (z n u : Series) :
  z ≠ [] →
  run_default to_datetime (zona_frame z n u)
  = Some (Stop (ErrorMissing {["region"]})).
Proof.
  intros Hz. unfold run_default. rewrite default_selections_zona. simpl.
  unfold run. destruct z as [|c z]; [done|]. by vm_compute.
Qed.

Lemma zona_frame_reports_region_witness :
  [CStr "Norte"] ≠ []
  ∧ run_default keep_cells
      (zona_frame [CStr "Norte"] [CStr "Ana"] [CNum (Q2Qc 3)])
    = Some (Stop (ErrorMissing {["region"]})).
Proof.
  split; [done|].
  apply (zona_frame_reports_region keep_cells [CStr "Norte"]). done.
Defined.

(** C2, as stated, fails: the error the run ends with names [region] and
    does not name [ventas]. *)
Lemma zona_frame_does_not_report_ventas :
  run_default keep_cells (zona_frame [CStr "Norte"] [CStr "Ana"] [CNum (Q2Qc 3)])
  = Some (Stop (ErrorMissing {["region"]}))
  ∧ "ventas" ∉ ({["region"]} : gset string).
Proof. split; [by vm_compute|set_solver]. Qed.

Section MappingFacts.
Variable to_datetime : Series → Series.
Implicit Types (df : DataFrame) (sel : Selections).

Lemma labels_rename m df : labels (rename m df) = rename_label m <$> labels df.
Proof.
  unfold labels, rename. rewrite <- !list_fmap_compose.
  apply list_fmap_ext. by intros i [l s].
Qed.

Lemma labels_setitem df name s : labels (setitem df name s) = labels df.
Proof.
  unfold labels, setitem. rewrite <- list_fmap_compose.
  apply list_fmap_ext. intros i [l c] _. simpl. by case_decide.
Qed.

Lemma getitem_absent df name :
  LStr name ∉ labels df → getitem df name = NoColumn.
Proof.
  intros Hno. unfold getitem.
  replace (filter (λ c, c.1 = LStr name) df) with (@nil (label * Series)); [done|].
  symmetry. apply elem_of_nil_inv. intros [l s] [Heq Hin]%list_elem_of_filter.
  simpl in Heq. subst l. apply Hno. unfold labels.
  apply list_elem_of_fmap. by exists (LStr name, s).
Qed.

Lemma getitem_present df name :
  LStr name ∈ labels df → getitem df name ≠ NoColumn.
Proof.
  unfold labels. intros ([l s] & Heq & Hin)%list_elem_of_fmap. simpl in Heq. subst l.
  assert ((LStr name, s) ∈ filter (λ c, c.1 = LStr name) df) as Hf
    by (by apply list_elem_of_filter).
  unfold getitem. destruct (filter _ df) as [|c1 [|c2 l]] eqn:E; [|done..].
  by apply not_elem_of_nil in Hf.
Qed.

Lemma coerce_absent f many name df :
  LStr name ∉ labels df → coerce f many name df = Raise (KeyError name).
Proof. intros Hno. unfold coerce. by rewrite getitem_absent. Qed.

Lemma coerce_Ok f many name df df' :
  coerce f many name df = Ok df' →
  LStr name ∈ labels df ∧ labels df' = labels df.
Proof.
  unfold coerce. intros Hc. split.
  - destruct (decide (LStr name ∈ labels df)) as [|Hno]; [done|].
    by rewrite getitem_absent in Hc.
  - destruct (getitem df name); simplify_eq. apply labels_setitem.
Qed.

(** The statement of line 58 fails before the check of lines 66-70 can
    run, whenever the renamed frame has no column [unidades]. *)
Lemma mapping_without_unidades df sel :
  LStr "unidades" ∉ labels (rename (rename_map sel) df) →
  mapping to_datetime df sel = Raise (KeyError "unidades").
Proof. intros Hno. unfold mapping, mapping_with. by rewrite coerce_absent. Qed.

(** The same at line 59 for [ventas]. *)
Lemma mapping_without_ventas df sel :
  LStr "ventas" ∉ labels (rename (rename_map sel) df) →
  ∃ e, mapping to_datetime df sel = Raise e.
Proof.
  intros Hno. unfold mapping, mapping_with.
  destruct (coerce _ _ "unidades" _) as [df1|e|m] eqn:E1; simpl; [|by eauto|].
  - apply coerce_Ok in E1 as [_ E1].
    rewrite coerce_absent by (by rewrite E1). simpl. by eauto.
  - unfold coerce in E1. by destruct (getitem _ _).
Qed.

Lemma absent_labels df df' : labels df' = labels df → absent df' = absent df.
Proof. unfold absent. by intros ->. Qed.

Lemma absent_present df name : LStr name ∈ labels df → name ∉ absent df.
Proof. unfold absent. rewrite elem_of_filter. tauto. Qed.

Lemma check_Stop df m :
  (if decide (absent df = ∅) then Ok df else Stop (ErrorMissing (absent df)))
  = Stop m →
  m = ErrorMissing (absent df) ∧ absent df ≠ ∅.
Proof. case_decide; [done|]. by intros [= <-]. Qed.

Lemma coerce_not_Stop f many name df m : coerce f many name df ≠ Stop m.
Proof. unfold coerce. by destruct (getitem df name). Qed.

(** When the check of lines 66-70 is reached and stops the script, its
    message lists the required columns the renamed frame lacks; they are
    never [unidades] or [ventas]. *)
Lemma mapping_Stop df sel m :
  mapping to_datetime df sel = Stop m →
  m = ErrorMissing (absent (rename (rename_map sel) df))
  ∧ absent (rename (rename_map sel) df) ≠ ∅
  ∧ ("unidades" ∉ absent (rename (rename_map sel) df))
  ∧ ("ventas" ∉ absent (rename (rename_map sel) df)).
Proof.
  unfold mapping, mapping_with.
  change (λ df0 : DataFrame,
            if decide (filter (λ c, LStr c ∉ labels df0) needed = ∅)
            then Ok df0
            else Stop (ErrorMissing (filter (λ c, LStr c ∉ labels df0) needed)))
    with (λ df0 : DataFrame,
            if decide (absent df0 = ∅) then Ok df0
            else Stop (ErrorMissing (absent df0))).
  destruct (coerce _ _ "unidades" _) as [df1|e|m1] eqn:E1; simpl; [|done|].
  2: { by apply coerce_not_Stop in E1. }
  destruct (coerce _ _ "ventas" _) as [df2|e|m2] eqn:E2; simpl; [|done|].
  2: { by apply coerce_not_Stop in E2. }
  apply coerce_Ok in E1 as [Hu E1]. apply coerce_Ok in E2 as [Hv E2].
  rewrite E1 in E2, Hv.
  assert (∀ df3 : DataFrame, labels df3 = labels df2 →
            absent df3 = absent (rename (rename_map sel) df)) as Habs.
  { intros df3 H3. apply absent_labels. by rewrite H3. }
  intros Hstop.
  assert (m = ErrorMissing (absent (rename (rename_map sel) df))
          ∧ absent (rename (rename_map sel) df) ≠ ∅) as [-> Hne].
  { case_decide as Hf; simpl in Hstop.
    - destruct (coerce to_datetime _ "fecha" df2) as [df3|e|m3] eqn:E3;
        simpl in Hstop; [|done|by apply coerce_not_Stop in E3].
      apply coerce_Ok in E3 as [_ E3].
      apply check_Stop in Hstop. by rewrite (Habs df3 E3) in Hstop.
    - apply check_Stop in Hstop. by rewrite (Habs df2 eq_refl) in Hstop. }
  split_and!; [done|done|by apply absent_present..].
Qed.

End MappingFacts.

(** C8, evaluated on the code.  Two runs in which required columns are
    absent after the mapping and the script never reaches the check that
    would name them, because line 58 raises [KeyError] first: a sheet with
    the single column [X] and every pre-selected entry kept; and a sheet
    with the columns [A], [B] where the user picks [A] for region, units
    and sales. *)
Theorem missing_check_not_reached (to_datetime : Series → Series) :
  (default_selections [(LStr "X", [CStr "a"])]
   = Some {| c_region := "X"; c_vend := "X"; c_unid := "X"; c_ventas := "X";
             use_fecha := false; c_fecha := None |}
   ∧ absent (rename (rename_map {| c_region := "X"; c_vend := "X"; c_unid := "X";
                                   c_ventas := "X"; use_fecha := false;
                                   c_fecha := None |})
               [(LStr "X", [CStr "a"])])
     = {["region"; "vendedor"; "unidades"]}
   ∧ run_default to_datetime [(LStr "X", [CStr "a"])]
     = Some (Raise (KeyError "unidades")))
  ∧ (absent (rename (rename_map {| c_region := "A"; c_vend := "B"; c_unid := "A";
                                   c_ventas := "A"; use_fecha := false;
                                   c_fecha := None |})
               [(LStr "A", [CStr "Norte"]); (LStr "B", [CStr "Ana"])])
     = {["region"; "unidades"]}
     ∧ run to_datetime [(LStr "A", [CStr "Norte"]); (LStr "B", [CStr "Ana"])]
         {| c_region := "A"; c_vend := "B"; c_unid := "A"; c_ventas := "A";
            use_fecha := false; c_fecha := None |}
       = Raise (KeyError "unidades")).
Proof. split_and!; by vm_compute. Qed.

(** * The rename map as a dictionary *)

Section RenameMap.
Implicit Types (sel : Selections) (l : list (string * string))
  (m : gmap string string).

Lemma insert_all_lookup l m c :
  foldl (λ m p, <[p.1 := p.2]> m) m l !! c
  = match last_assigned c l with
    | Some v => Some v
    | None => m !! c
    end.
Proof.
  unfold last_assigned. revert m.
  induction l as [|[k v] l IH] using rev_ind; intros m; [done|].
  rewrite foldl_app, filter_app, fmap_app, filter_cons, filter_nil. simpl.
  destruct (decide (k = c)) as [->|Hne]; simpl.
  - by rewrite last_snoc, lookup_insert_eq.
  - by rewrite app_nil_r, lookup_insert_ne.
Qed.

Lemma rename_map_foldl sel :
  rename_map sel = foldl (λ m p, <[p.1 := p.2]> m) ∅ (assignments sel).
Proof.
  unfold rename_map, assignments.
  destruct (c_fecha sel) as [f|]; [|done].
  by destruct (use_fecha sel && truthy (Some f)).
Qed.

Lemma rename_map_last sel c :
  rename_map sel !! c = last_assigned c (assignments sel).
Proof.
  rewrite rename_map_foldl, insert_all_lookup, lookup_empty.
  by destruct (last_assigned _ _).
Qed.

Lemma canonical_names_NoDup :
  NoDup ["region"; "vendedor"; "unidades"; "ventas"; "fecha"].
Proof.
  repeat (apply NoDup_cons_2;
          [intros H; repeat (apply elem_of_cons in H as [H|H]; [discriminate H|]);
           by apply elem_of_nil in H|]).
  apply NoDup_nil_2.
Qed.

Lemma assignments_roles_NoDup sel : NoDup (assignments sel).*2.
Proof.
  pose proof canonical_names_NoDup as H5.
  assert (NoDup ["region"; "vendedor"; "unidades"; "ventas"]) as H4.
  { by apply (NoDup_app ["region"; "vendedor"; "unidades"; "ventas"] ["fecha"]) in H5
      as (? & _ & _). }
  unfold assignments.
  destruct (c_fecha sel) as [f|]; [destruct (use_fecha sel && truthy (Some f))|].
  - exact H5.
  - exact H4.
  - exact H4.
Qed.

(** A role that is followed by another role on the same raw column is
    not a value of the rename map. *)
Lemma overridden_role_unmapped sel i j c a b k :
  i < j →
  assignments sel !! i = Some (c, a) →
  assignments sel !! j = Some (c, b) →
  rename_map sel !! k ≠ Some a.
Proof.
  intros Hij Hi Hj Hk. rewrite rename_map_last in Hk. unfold last_assigned in Hk.
  rewrite fmap_last in Hk.
  destruct (last (filter _ _)) as [[k' a']|] eqn:Hlast; simplify_eq/=.
  pose proof (last_Some_elem_of _ _ Hlast) as [Hk' _]%list_elem_of_filter.
  simpl in Hk'. subst k'.
  apply last_filter_Some in Hlast as (l1 & l2 & Heq & Hl2).
  assert (i = length l1) as ->.
  { apply (NoDup_lookup _ _ _ a (assignments_roles_NoDup sel)).
    - by rewrite list_lookup_fmap, Hi.
    - rewrite Heq, list_lookup_fmap, lookup_app_r, Nat.sub_diag by lia. done. }
  rewrite Heq, lookup_app_r in Hi, Hj by lia.
  rewrite Nat.sub_diag in Hi. simplify_eq/=.
  destruct (j - length l1) as [|d] eqn:Hd; [lia|]. simpl in Hj.
  rewrite Forall_forall in Hl2.
  eapply Hl2; [eapply list_elem_of_lookup_2; exact Hj|done].
Qed.

Lemma rename_label_target m (df : DataFrame) a :
  (∀ k, m !! k ≠ Some a) →
  LStr a ∈ labels (rename m df) →
  LStr a ∈ labels df ∧ m !! a = None.
Proof.
  intros Hno. rewrite labels_rename.
  intros ([s|z] & Heq & Hin)%list_elem_of_fmap; simpl in Heq; [|done].
  destruct (m !! s) as [t|] eqn:Hs; simplify_eq; [by destruct (Hno s)|]. done.
Qed.

Lemma rename_label_source m (df : DataFrame) c v :
  m !! c = Some v → LStr c ∈ labels df → LStr v ∈ labels (rename m df).
Proof.
  intros Hc Hin. rewrite labels_rename. apply list_elem_of_fmap.
  exists (LStr c). simpl. by rewrite Hc.
Qed.

End RenameMap.

(** C10.  The rename map sends a raw column to the canonical name of the
    last role that chose it, in the order region, vendedor, unidades,
    ventas, fecha, and the column is renamed to it.  A role followed by
    another role on the same raw column gets no column: its canonical name
    is in the renamed frame only if the sheet already had an unmapped
    column of that name.  With the headers [Zona], [Nombre], [Unidades] and
    [Zona] chosen for both the region and the sales, every role has a raw
    column of the sheet and the check still reports [region] as
    missing. *)
Theorem rename_map_last_role_wins (sel : Selections) :
  (∀ c, rename_map sel !! c = last_assigned c (assignments sel))
  ∧ (∀ (df : DataFrame) c v,
       last_assigned c (assignments sel) = Some v →
       LStr c ∈ labels df → LStr v ∈ labels (rename (rename_map sel) df))
  ∧ (∀ i j c a b,
       i < j →
       assignments sel !! i = Some (c, a) →
       assignments sel !! j = Some (c, b) →
       rename_map sel !! c ≠ Some a
       ∧ ∀ df : DataFrame,
           LStr a ∈ labels (rename (rename_map sel) df) →
           LStr a ∈ labels df ∧ rename_map sel !! a = None)
  ∧ (∃ (df : DataFrame) sel',
       (∀ p, p ∈ assignments sel' → LStr p.1 ∈ labels df)
       ∧ ∀ to_datetime,
           run to_datetime df sel' = Stop (ErrorMissing {["region"]})).
Proof.
  split_and!.
  - apply rename_map_last.
  - intros df c v Hv. apply rename_label_source. by rewrite rename_map_last.
  - intros i j c a b Hij Hi Hj. split.
    + by apply (overridden_role_unmapped sel i j c a b).
    + intros df. apply rename_label_target. intros k.
      by apply (overridden_role_unmapped sel i j c a b).
  - exists (zona_frame [CStr "Norte"] [CStr "Ana"] [CNum (Q2Qc 3)]),
      {| c_region := "Zona"; c_vend := "Nombre"; c_unid := "Unidades";
         c_ventas := "Zona"; use_fecha := false; c_fecha := None |}.
    split; [|by vm_compute].
    apply Forall_forall. unfold assignments, zona_frame, labels. simpl.
    repeat (apply Forall_cons; split; [simpl; repeat constructor|]).
    apply Forall_nil_2.
Qed.

(** * Filters *)

Section FilterFacts.
Context {num : Type}.
Variable str_num : Qc → string.
Implicit Types (df : Table num) (r : Row num) (reg_sel vend_sel : string).

Lemma loc_fmap {A : Type} (f : A → bool) (l : list A) :
  loc l (f <$> l) = filter (λ x, f x) l.
Proof.
  induction l as [|x l IH]; [done|]. simpl. rewrite filter_cons.
  destruct (f x); simpl; [f_equal|]; exact IH.
Qed.

Lemma row_mask_retained reg_sel vend_sel r :
  row_mask str_num reg_sel vend_sel r ↔ retained str_num reg_sel vend_sel r.
Proof.
  unfold row_mask, retained. rewrite andb_True.
  destruct (decide (reg_sel ≠ "(Todas)")) as [Hr|Hr%dec_stable];
    destruct (decide (vend_sel ≠ "(Todos)")) as [Hv|Hv%dec_stable];
    rewrite ?bool_decide_spec; simpl; tauto.
Qed.

Lemma mask_rows df reg_sel vend_sel :
  mask str_num df reg_sel vend_sel = row_mask str_num reg_sel vend_sel <$> df.
Proof.
  unfold mask, row_mask.
  destruct (decide (reg_sel ≠ "(Todas)")), (decide (vend_sel ≠ "(Todos)"));
    induction df as [|r df IH]; simpl; try done; f_equal; try done;
    by rewrite ?andb_true_r.
Qed.

Lemma origen_filter df reg_sel :
  reg_sel ≠ "(Todas)" →
  origen str_num df reg_sel
  = filter (λ r, astype_str str_num (region r) = reg_sel) df.
Proof.
  intros Hne. unfold origen. rewrite decide_False by done.
  rewrite loc_fmap. apply list_filter_iff. intros r. apply bool_decide_spec.
Qed.

Lemma elem_of_unique {A : Type} `{EqDecision A} (l : list A) x :
  x ∈ unique l ↔ x ∈ l.
Proof.
  induction l as [|y l IH]; [done|]. simpl.
  rewrite !elem_of_cons, list_elem_of_filter, IH.
  destruct (decide (x = y)); tauto.
Qed.

Lemma unique_NoDup {A : Type} `{EqDecision A} (l : list A) : NoDup (unique l).
Proof.
  induction l as [|y l IH]; simpl; [apply NoDup_nil_2|].
  apply NoDup_cons_2.
  - rewrite list_elem_of_filter. by intros [Hne _].
  - by apply NoDup_filter.
Qed.

Lemma elem_of_sorted (l : list string) x : x ∈ sorted l ↔ x ∈ l.
Proof. unfold sorted. by rewrite merge_sort_Permutation. Qed.

Lemma elem_of_options (s : list cell) o :
  o ∈ options str_num s ↔ ∃ c, c ∈ s ∧ c ≠ CNull ∧ astype_str str_num c = o.
Proof.
  unfold options, dropna.
  rewrite elem_of_sorted, elem_of_unique, list_elem_of_fmap.
  split.
  - intros (c & -> & [Hc Hin]%list_elem_of_filter). eauto.
  - intros (c & Hin & Hc & <-). exists c. split; [done|].
    by apply list_elem_of_filter.
Qed.

End FilterFacts.

(** C4.  [apply_filters] keeps exactly the rows that satisfy the retention
    rule: the mask has one entry per row, the entry is true if and only if
    (the region choice is the "no filter" entry or the region of the row,
    as text, equals it) and (the same for the salesperson), and the
    filtered table is the rows whose entry is true, in their order. *)
Theorem df_f_retains {num : Type} (str_num : Qc → string) (df : Table num)
    (reg_sel vend_sel : string) :
  df_f str_num df reg_sel vend_sel = filter (retained str_num reg_sel vend_sel) df
  ∧ length (mask str_num df reg_sel vend_sel) = length df
  ∧ (∀ i r, df !! i = Some r →
       (mask str_num df reg_sel vend_sel !! i = Some true
        ↔ retained str_num reg_sel vend_sel r))
  ∧ (∀ r, r ∈ df_f str_num df reg_sel vend_sel
          ↔ r ∈ df ∧ retained str_num reg_sel vend_sel r).
Proof.
  assert (df_f str_num df reg_sel vend_sel
          = filter (retained str_num reg_sel vend_sel) df) as Hf.
  { unfold df_f. rewrite mask_rows, loc_fmap.
    apply list_filter_iff. intros r. apply row_mask_retained. }
  split_and!.
  - exact Hf.
  - by rewrite mask_rows, length_fmap.
  - intros i r Hr. rewrite mask_rows, list_lookup_fmap, Hr. simpl.
    rewrite <- row_mask_retained. destruct (row_mask _ _ _ r); simpl.
    + tauto.
    + split; [done|tauto].
  - intros r. rewrite Hf, list_elem_of_filter. tauto.
Qed.

(** C3.  With a region choice other than the "no filter" entry, the
    entries of the salesperson selector are the "no filter" entry and the
    salespersons, as text, of the rows whose region, as text, equals the
    choice: nothing else is offered, and each of them is. *)
Theorem vend_opts_cascade {num : Type} (str_num : Qc → string) (df : Table num)
    (R o : string) :
  R ≠ "(Todas)" →
  o ∈ vend_opts str_num df R ↔
  o = "(Todos)"
  ∨ ∃ r, r ∈ df
         ∧ astype_str str_num (region r) = R
         ∧ vendedor r ≠ CNull
         ∧ astype_str str_num (vendedor r) = o.
Proof.
  intros HR. unfold vend_opts.
  rewrite elem_of_cons, elem_of_options, origen_filter by done.
  apply or_iff_compat_l. split.
  - intros (c & (r & -> & [Hreg Hin]%list_elem_of_filter)%list_elem_of_fmap & Hc & Ho).
    eauto 10.
  - intros (r & Hin & Hreg & Hc & Ho). exists (vendedor r).
    split; [|done]. apply list_elem_of_fmap. exists r. split; [done|].
    by apply list_elem_of_filter.
Qed.

Lemma vend_opts_cascade_witness :
  "North" ≠ "(Todas)"
  ∧ ("Beto" ∈ vend_opts no_numbers example_table "North" ↔
     "Beto" = "(Todos)"
     ∨ ∃ r, r ∈ example_table
            ∧ astype_str no_numbers (region r) = "North"
            ∧ vendedor r ≠ CNull
            ∧ astype_str no_numbers (vendedor r) = "Beto").
Proof.
  split; [done|].
  apply (vend_opts_cascade no_numbers example_table "North" "Beto"). done.
Defined.

(** The cascade on the example of the specification. *)
Example vend_opts_example :
  vend_opts no_numbers example_table "North" = ["(Todos)"; "Ana"; "Beto"]
  ∧ vend_opts no_numbers example_table "South" = ["(Todos)"; "Ana"]
  ∧ reg_opts no_numbers example_table = ["(Todas)"; "North"; "South"].
Proof. by vm_compute. Qed.

(** * Aggregator *)

Section AggFacts.
Context {num : Type} `{!Arith num}.
Implicit Types (df : Table num) (k : cell).

Lemma kept_kept (by_ : dim) df : kept by_ (kept by_ df) = kept by_ df.
Proof.
  unfold kept. rewrite list_filter_filter. apply list_filter_iff. tauto.
Qed.

Lemma group_rows_kept (by_ : dim) k df :
  k ≠ CNull → group_rows by_ k (kept by_ df) = group_rows by_ k df.
Proof.
  intros Hk. unfold group_rows, kept. rewrite list_filter_filter.
  apply list_filter_iff. intros r. split; [tauto|]. by intros ->.
Qed.

Lemma elem_of_group_keys (by_ : dim) df k :
  k ∈ group_keys by_ df ↔ k ≠ CNull ∧ ∃ r, r ∈ df ∧ key by_ r = k.
Proof.
  unfold group_keys, kept.
  rewrite merge_sort_Permutation, elem_of_unique, list_elem_of_fmap. split.
  - intros (r & -> & [Hr Hin]%list_elem_of_filter). eauto.
  - intros (Hk & r & Hin & <-). exists r. split; [done|].
    by apply list_elem_of_filter.
Qed.

Lemma group_keys_NoDup (by_ : dim) df : NoDup (group_keys by_ df).
Proof.
  unfold group_keys. rewrite merge_sort_Permutation. apply unique_NoDup.
Qed.

Lemma group_keys_cover (by_ : dim) df r :
  r ∈ kept by_ df → key by_ r ∈ group_keys by_ df.
Proof.
  unfold kept. intros [Hr Hin]%list_elem_of_filter.
  apply elem_of_group_keys. eauto.
Qed.

Lemma group_keys_kept (by_ : dim) df :
  group_keys by_ (kept by_ df) = group_keys by_ df.
Proof. unfold group_keys. by rewrite kept_kept. Qed.

(** The sums of the groups, key by key. *)
Lemma groupby_sum_unfold (by_ : dim) df :
  groupby_sum by_ df
  = (λ k, (k, group_sum (unidades <$> group_rows by_ k (kept by_ df)),
              group_sum (ventas <$> group_rows by_ k (kept by_ df))))
      <$> group_keys by_ df.
Proof. reflexivity. Qed.

Lemma agg_ventas_column (by_ : dim) df :
  a_ventas <$> agg by_ df = (groupby_sum by_ df).*2.
Proof.
  unfold agg. rewrite <- list_fmap_compose. apply list_fmap_ext.
  by intros i [[k u] v] _.
Qed.

(** The total [agg] divides by is the sum of the sums of the groups. *)
Lemma agg_total_unfold (by_ : dim) df :
  agg_total by_ df
  = series_sum ((λ k, group_sum (ventas <$> group_rows by_ k (kept by_ df)))
                  <$> group_keys by_ df).
Proof.
  unfold agg_total. rewrite agg_ventas_column, groupby_sum_unfold.
  by rewrite <- list_fmap_compose.
Qed.

Lemma agg_unfold (by_ : dim) df :
  agg by_ df
  = (λ k, {| a_key := k;
             a_unidades := group_sum (unidades <$> group_rows by_ k (kept by_ df));
             a_ventas := group_sum (ventas <$> group_rows by_ k (kept by_ df));
             pct_ventas :=
               if is_zero (agg_total by_ df) then of_int 0
               else round2
                      (times
                         (truediv
                            (group_sum (ventas <$> group_rows by_ k (kept by_ df)))
                            (agg_total by_ df))
                         (of_int 100)) |})
    <$> group_keys by_ df.
Proof.
  unfold agg_total. rewrite agg_ventas_column.
  unfold agg. rewrite groupby_sum_unfold, <- list_fmap_compose. done.
Qed.

Lemma agg_keys (by_ : dim) df : a_key <$> agg by_ df = group_keys by_ df.
Proof.
  rewrite agg_unfold, <- list_fmap_compose.
  rewrite <- (list_fmap_id (group_keys by_ df)) at 2. done.
Qed.

Lemma agg_total_kept (by_ : dim) df : agg_total by_ (kept by_ df) = agg_total by_ df.
Proof. by rewrite !agg_total_unfold, group_keys_kept, kept_kept. Qed.

End AggFacts.

(** ** Sums of int64 columns *)

Section Int64Facts.
Implicit Types (zs : list Z) (l : list number) (df : Table number).

Lemma wrap64_idemp_l (a b : Z) : wrap64 (wrap64 a + b) = wrap64 (a + b).
Proof.
  unfold wrap64. f_equal.
  replace ((a + 2 ^ 63) mod 2 ^ 64 - 2 ^ 63 + b + 2 ^ 63)%Z
    with ((a + 2 ^ 63) mod 2 ^ 64 + b)%Z by lia.
  rewrite Zplus_mod_idemp_l. f_equal. lia.
Qed.

Lemma wrap64_idemp_r (a b : Z) : wrap64 (a + wrap64 b) = wrap64 (a + b).
Proof. rewrite Z.add_comm, wrap64_idemp_l. f_equal. lia. Qed.

Lemma wrap64_range (z : Z) : (- 2 ^ 63 ≤ wrap64 z < 2 ^ 63)%Z.
Proof.
  unfold wrap64. pose proof (Z.mod_pos_bound (z + 2 ^ 63) (2 ^ 64)). lia.
Qed.

Lemma wrap64_small (z : Z) : (- 2 ^ 63 ≤ z < 2 ^ 63)%Z → wrap64 z = z.
Proof. intros Hz. unfold wrap64. rewrite Z.mod_small; lia. Qed.

Lemma int_sum_foldl (a : Z) zs :
  foldl (λ acc z, wrap64 (acc + z)) (wrap64 a) zs
  = wrap64 (a + foldr Z.add 0%Z zs).
Proof.
  revert a. induction zs as [|z zs IH]; intros a; simpl.
  - f_equal. lia.
  - rewrite wrap64_idemp_l, IH. f_equal. lia.
Qed.

(** A sum of int64 values is the sum of the integers, wrapped once. *)
Lemma int_sum_wrap zs : int_sum zs = wrap64 (foldr Z.add 0%Z zs).
Proof. unfold int_sum. change 0%Z with (wrap64 0) at 1. apply int_sum_foldl. Qed.

Lemma ints_I64 zs : ints (I64 <$> zs) = Some zs.
Proof.
  unfold ints. induction zs as [|z zs IH]; [done|].
  rewrite fmap_cons. simpl. by rewrite IH.
Qed.

Lemma int64_values l : Forall is_int64 l → l = I64 <$> (int_of <$> l).
Proof.
  induction 1 as [|x l (z & -> & _) _ IH]; [done|].
  rewrite !fmap_cons. simpl. by f_equal.
Qed.

Lemma series_sum_int64 l :
  Forall is_int64 l → series_sum l = I64 (wrap64 (exact_sum l)).
Proof.
  intros Hl. unfold exact_sum. rewrite (int64_values l Hl) at 1. simpl.
  unfold np_series_sum. by rewrite ints_I64, int_sum_wrap.
Qed.

Lemma group_sum_int64 l :
  Forall is_int64 l → group_sum l = I64 (wrap64 (exact_sum l)).
Proof.
  intros Hl. unfold exact_sum. rewrite (int64_values l Hl) at 1. simpl.
  unfold np_group_sum. by rewrite ints_I64, int_sum_wrap.
Qed.

Lemma is_int64_wrap (z : Z) : is_int64 (I64 (wrap64 z)).
Proof. exists (wrap64 z). split; [done|apply wrap64_range]. Qed.

Lemma exact_sum_cons x l : exact_sum (x :: l) = (int_of x + exact_sum l)%Z.
Proof. done. Qed.

Lemma exact_sum_app l1 l2 : exact_sum (l1 ++ l2) = (exact_sum l1 + exact_sum l2)%Z.
Proof.
  induction l1 as [|x l1 IH]; [done|].
  rewrite <- app_comm_cons, !exact_sum_cons, IH. lia.
Qed.

Lemma exact_sum_Permutation l l' : l ≡ₚ l' → exact_sum l = exact_sum l'.
Proof.
  induction 1 as [|x l l' _ IH|x y l|l l' l'' _ IH1 _ IH2]; [done|..].
  - by rewrite !exact_sum_cons, IH.
  - rewrite !exact_sum_cons. lia.
  - by rewrite IH1.
Qed.

(** Wrapping each term of a sum changes nothing once the sum is wrapped. *)
Lemma wrap64_sum_wrapped {A : Type} (f : A → Z) (ks : list A) :
  wrap64 (exact_sum ((λ k, I64 (wrap64 (f k))) <$> ks))
  = wrap64 (foldr Z.add 0%Z (f <$> ks)).
Proof.
  induction ks as [|k ks IH]; [done|].
  rewrite !fmap_cons, exact_sum_cons. simpl.
  rewrite wrap64_idemp_l, <- wrap64_idemp_r, IH, wrap64_idemp_r. done.
Qed.

Lemma Zsum_const_zero {A : Type} (ks : list A) :
  foldr Z.add 0%Z ((λ _, 0%Z) <$> ks) = 0%Z.
Proof. induction ks as [|k ks IH]; [done|]. rewrite fmap_cons. simpl. lia. Qed.

Lemma Zsum_plus {A : Type} (a b : A → Z) (ks : list A) :
  foldr Z.add 0%Z ((λ k, a k + b k)%Z <$> ks)
  = (foldr Z.add 0%Z (a <$> ks) + foldr Z.add 0%Z (b <$> ks))%Z.
Proof.
  induction ks as [|k ks IH]; [done|]. rewrite !fmap_cons. simpl. lia.
Qed.

Lemma Zsum_indicator (ks : list cell) (k0 : cell) (v : Z) :
  NoDup ks → k0 ∈ ks →
  foldr Z.add 0%Z ((λ k, if decide (k0 = k) then v else 0%Z) <$> ks) = v.
Proof.
  induction 1 as [|k ks Hk Hnd IH]; [by intros ?%elem_of_nil|].
  rewrite fmap_cons. simpl.
  intros [->|Hin]%elem_of_cons.
  - rewrite decide_True by done.
    rewrite (list_fmap_ext _ (λ _, 0%Z) ks), Zsum_const_zero; [lia|].
    intros i k' Hk'. simpl. rewrite decide_False; [done|].
    intros ->. apply Hk. by eapply list_elem_of_lookup_2.
  - rewrite decide_False by (intros ->; done). rewrite IH by done. lia.
Qed.

(** Summing group by group is summing row by row, when every row falls
    in exactly one of the groups. *)
Lemma exact_sum_groups (by_ : dim) (f : Row number → number) (ks : list cell) df :
  NoDup ks →
  (∀ r, r ∈ df → key by_ r ∈ ks) →
  foldr Z.add 0%Z ((λ k, exact_sum (f <$> group_rows by_ k df)) <$> ks)
  = exact_sum (f <$> df).
Proof.
  intros Hnd. induction df as [|r df IH]; intros Hin.
  - simpl. apply Zsum_const_zero.
  - rewrite fmap_cons, exact_sum_cons, <- IH by (intros r' Hr'; apply Hin; by right).
    rewrite <- (Zsum_indicator ks (key by_ r) (int_of (f r)) Hnd)
      by (apply Hin; by left).
    rewrite <- Zsum_plus. f_equal. apply list_fmap_ext. intros i k _. simpl.
    unfold group_rows. rewrite filter_cons.
    destruct (decide (key by_ r = k)); [done|lia].
Qed.

Lemma int64_column_filter (f : Row number → number) (P : Row number → Prop)
    `{∀ r, Decision (P r)} df :
  Forall (λ r, is_int64 (f r)) df → Forall is_int64 (f <$> filter P df).
Proof.
  rewrite Forall_fmap, !Forall_forall.
  intros Hall r [_ Hin]%list_elem_of_filter. by apply Hall.
Qed.

(** On an int64 column the sum of the sums of the groups is the sum over
    the rows that have a key, modulo 2^64. *)
Lemma group_sums_int64 (by_ : dim) (f : Row number → number) df :
  Forall (λ r, is_int64 (f r)) df →
  series_sum ((λ k, group_sum (f <$> group_rows by_ k (kept by_ df)))
                <$> group_keys by_ df)
  = I64 (wrap64 (exact_sum (f <$> kept by_ df))).
Proof.
  intros Hint.
  rewrite (list_fmap_ext _
             (λ k, I64 (wrap64 (exact_sum (f <$> group_rows by_ k (kept by_ df)))))
             (group_keys by_ df)).
  2: { intros i k _. simpl. apply group_sum_int64.
       unfold group_rows, kept. rewrite list_filter_filter.
       by apply int64_column_filter. }
  rewrite series_sum_int64.
  2: { apply Forall_fmap, Forall_forall. intros k _. apply is_int64_wrap. }
  f_equal.
  rewrite (wrap64_sum_wrapped (λ k, exact_sum (f <$> group_rows by_ k (kept by_ df)))).
  f_equal.
  apply (exact_sum_groups by_ f (group_keys by_ df) (kept by_ df)).
  - apply group_keys_NoDup.
  - apply group_keys_cover.
Qed.

Lemma agg_total_int64 (by_ : dim) df :
  Forall (λ r, is_int64 (ventas r)) df →
  agg_total by_ df = I64 (wrap64 (exact_sum (ventas <$> kept by_ df))).
Proof. intros Hint. rewrite agg_total_unfold. by apply group_sums_int64. Qed.

Lemma agg_unidades_column (by_ : dim) df :
  a_unidades <$> agg by_ df
  = (λ k, group_sum (unidades <$> group_rows by_ k (kept by_ df)))
      <$> group_keys by_ df.
Proof. by rewrite agg_unfold, <- list_fmap_compose. Qed.

End Int64Facts.

(** C1 (amended).  For a table and a grouping dimension (region or
    vendedor), [agg] ignores the rows whose grouping value is missing and
    returns one row per distinct grouping value that is not missing, with
    the sums of [unidades] and of [ventas] over the rows of that value, as
    [groupby] adds them.  [pct_ventas] is [round(ventas / total * 100, 2)],
    where [total] is the sum of the [ventas] of the groups, that is of the
    sums just computed; when that total is zero every [pct_ventas] is 0.
    On an int64 column the total is the sum of [ventas] over the rows that
    were not excluded, modulo 2^64.  The quotient and the rounding are
    those of float64: sales of 23 and 137 get 14.37 and 85.62. *)
Theorem agg_groups {num : Type} `{!Arith num} (by_ : dim) (df : Table num) :
  agg by_ (kept by_ df) = agg by_ df
  ∧ NoDup (a_key <$> agg by_ df)
  ∧ (∀ k, k ∈ a_key <$> agg by_ df ↔ k ≠ CNull ∧ ∃ r, r ∈ df ∧ key by_ r = k)
  ∧ (∀ a, a ∈ agg by_ df →
       a_unidades a = group_sum (unidades <$> group_rows by_ (a_key a) df)
       ∧ a_ventas a = group_sum (ventas <$> group_rows by_ (a_key a) df)
       ∧ pct_ventas a
         = if is_zero (series_sum (a_ventas <$> agg by_ df)) then of_int 0
           else round2 (times (truediv (a_ventas a)
                                       (series_sum (a_ventas <$> agg by_ df)))
                              (of_int 100)))
  ∧ (∀ t : Table number,
       Forall (λ r, is_int64 (ventas r)) t →
       series_sum (a_ventas <$> agg by_ t)
       = I64 (wrap64 (exact_sum (ventas <$> kept by_ t))))
  ∧ pct_ventas <$> agg ByVendedor
      [ {| region := CStr "N"; vendedor := CStr "Ana";
           unidades := I64 1; ventas := I64 23 |};
        {| region := CStr "N"; vendedor := CStr "Beto";
           unidades := I64 1; ventas := I64 137 |} ]
    = [F64 (1437 / 100); F64 (8562 / 100)].
Proof.
  split_and!; [| | | | |vm_compute; reflexivity].
  - rewrite !agg_unfold. by rewrite agg_total_kept, group_keys_kept, !kept_kept.
  - rewrite agg_keys. apply group_keys_NoDup.
  - intros k. rewrite agg_keys. apply elem_of_group_keys.
  - intros a. rewrite agg_unfold at 1.
    intros (k & -> & [Hk _]%elem_of_group_keys)%list_elem_of_fmap. simpl.
    by rewrite group_rows_kept.
  - intros t Ht. by apply agg_total_int64.
Qed.

(** C1, as stated, fails.  In float64 the sales 1e16, 0.5 and -1e16 add up
    to exactly zero row by row, yet the region [B] gets 100 per cent: the
    total [agg] divides by is the sum of the two group sums, 0.5.  In int64
    two sales of 2^62 add up to 2^63, so each is 50 per cent of the total;
    [agg] gives -50 to both, its total having wrapped around to -2^63. *)
Lemma agg_total_is_not_the_row_total :
  series_sum (ventas <$> kept ByRegion cancelling_table) = F64 0
  ∧ (λ a, (a_key a, a_ventas a, pct_ventas a)) <$> agg ByRegion cancelling_table
    = [(CStr "A", F64 0, F64 0); (CStr "B", F64 0.5, F64 100)]
  ∧ exact_sum (ventas <$> kept ByRegion overflow_table) = (2 ^ 63)%Z
  ∧ (λ a, (a_key a, a_ventas a, pct_ventas a)) <$> agg ByRegion overflow_table
    = [(CStr "A", I64 (2 ^ 62), F64 (-50)); (CStr "B", I64 (2 ^ 62), F64 (-50))].
Proof. split_and!; vm_compute; reflexivity. Qed.

(** C5 (amended).  On an int64 column, the [ventas] of the aggregate rows
    add up to what the [ventas] of the rows whose grouping value is not
    missing add up to: both sums are the sum of those integers modulo
    2^64, and that sum itself when it fits in an int64. *)
Theorem agg_preserves_ventas (by_ : dim) (df : Table number) :
  Forall (λ r, is_int64 (ventas r)) df →
  series_sum (a_ventas <$> agg by_ df)
  = series_sum (ventas <$> filter (λ r, key by_ r ≠ CNull) df)
  ∧ series_sum (a_ventas <$> agg by_ df)
    = I64 (wrap64 (exact_sum (ventas <$> filter (λ r, key by_ r ≠ CNull) df)))
  ∧ ((- 2 ^ 63 ≤ exact_sum (ventas <$> filter (λ r, key by_ r ≠ CNull) df)
      < 2 ^ 63)%Z →
     series_sum (a_ventas <$> agg by_ df)
     = I64 (exact_sum (ventas <$> filter (λ r, key by_ r ≠ CNull) df))).
Proof.
  intros Hint. fold (kept by_ df). fold (agg_total by_ df).
  rewrite (agg_total_int64 by_ df Hint).
  split_and!.
  - symmetry. apply series_sum_int64. unfold kept. by apply int64_column_filter.
  - done.
  - intros Hfit. by rewrite wrap64_small.
Qed.

Lemma agg_preserves_ventas_witness :
  Forall (λ r, is_int64 (ventas r)) example_table
  ∧ series_sum (a_ventas <$> agg ByRegion example_table)
    = series_sum (ventas <$> filter (λ r, key ByRegion r ≠ CNull) example_table)
  ∧ series_sum (a_ventas <$> agg ByRegion example_table)
    = I64 (wrap64 (exact_sum (ventas <$> filter (λ r, key ByRegion r ≠ CNull)
                                          example_table))).
Proof.
  assert (Forall (λ r, is_int64 (ventas r)) example_table) as H.
  { repeat (apply Forall_cons; split;
            [eexists; split; [reflexivity|by vm_compute]|]).
    apply Forall_nil_2. }
  split; [exact H|].
  destruct (agg_preserves_ventas ByRegion example_table H) as (H1 & H2 & _).
  split; [exact H1|exact H2].
Defined.

(** C5, as stated, fails.  In float64, with the sales 1e16 and -1e16 in
    one region and 0.5 in another, the aggregate rows add up to 0.5 and
    the rows to 0.  In int64, two sales of 2^62 add up to 2^63 and the
    aggregate rows to -2^63. *)
Lemma agg_ventas_not_preserved :
  series_sum (a_ventas <$> agg ByRegion cancelling_table) = F64 0.5
  ∧ series_sum (ventas <$> filter (λ r, key ByRegion r ≠ CNull) cancelling_table)
    = F64 0
  ∧ series_sum (a_ventas <$> agg ByRegion overflow_table) = I64 (- 2 ^ 63)
  ∧ exact_sum (ventas <$> filter (λ r, key ByRegion r ≠ CNull) overflow_table)
    = (2 ^ 63)%Z.
Proof. split_and!; vm_compute; reflexivity. Qed.

(** The example of the specification: North has 15 units and sales of 150,
    South 2 and 20; the percentages are 88.24 and 11.76. *)
Example agg_example_table :
  agg ByRegion example_table
  = [ {| a_key := CStr "North"; a_unidades := I64 15; a_ventas := I64 150;
         pct_ventas := F64 (8824 / 100) |};
      {| a_key := CStr "South"; a_unidades := I64 2; a_ventas := I64 20;
         pct_ventas := F64 (1176 / 100) |} ].
Proof. vm_compute. reflexivity. Qed.

(** Three equal groups get 33.33 each.  A row without region is in no
    group, and a total of zero gives the percentage 0. *)
Example agg_thirds_and_zero :
  pct_ventas <$> agg ByVendedor
    [ {| region := CStr "N"; vendedor := CStr "Ana";
         unidades := I64 1; ventas := F64 1 |};
      {| region := CStr "N"; vendedor := CStr "Beto";
         unidades := I64 1; ventas := F64 1 |};
      {| region := CNull; vendedor := CStr "Caro";
         unidades := I64 1; ventas := F64 1 |} ]
  = [F64 (3333 / 100); F64 (3333 / 100); F64 (3333 / 100)]
  ∧ (λ a, (a_key a, pct_ventas a)) <$> agg ByRegion
      [ {| region := CStr "N"; vendedor := CStr "Ana";
           unidades := I64 4; ventas := F64 nan |};
        {| region := CNull; vendedor := CStr "Beto";
           unidades := I64 1; ventas := F64 9 |} ]
    = [(CStr "N", I64 0)].
Proof. split; vm_compute; reflexivity. Qed.

(** In float64 the total can overflow: two sales of 2^1023 add up to
    infinity, and the shares are then 0 instead of 50. *)
Example agg_infinite_total :
  (λ a, (a_key a, pct_ventas a)) <$> agg ByRegion
    [ {| region := CStr "A"; vendedor := CStr "Ana";
         unidades := I64 1; ventas := F64 0x1p1023 |};
      {| region := CStr "B"; vendedor := CStr "Beto";
         unidades := I64 1; ventas := F64 0x1p1023 |} ]
  = [(CStr "A", F64 0); (CStr "B", F64 0)].
Proof. vm_compute. reflexivity. Qed.

(** * Further properties of the script *)

Import Loader Report Terms.

(** ** Pre-selected columns *)

Section DefaultFacts.
Implicit Types (cs keys : list string) (df : DataFrame).

Lemma index_lookup cs c : c ∈ cs → cs !! index c cs = Some c.
Proof.
  induction cs as [|y cs IH]; [by intros ?%elem_of_nil|].
  intros Hin. simpl. destruct (decide (c = y)) as [->|Hne]; [done|].
  apply elem_of_cons in Hin as [?|Hin]; [done|]. by apply IH.
Qed.

Lemma selectbox_default cs g :
  cs ≠ [] →
  ∃ c, selectbox cs (default_index cs g) = Some c
       ∧ c ∈ cs
       ∧ match g with
         | Some x => x ∈ cs → c = x
         | None => head cs = Some c
         end.
Proof.
  intros Hne. unfold selectbox, default_index.
  destruct cs as [|c0 cs]; [done|].
  destruct g as [x|].
  - destruct (decide (x ∈ c0 :: cs)) as [Hin|Hno].
    + exists x. by rewrite index_lookup.
    + exists c0. split; [done|]. split; [by left|done].
  - exists c0. split; [done|]. split; [by left|done].
Qed.

Lemma guess_in_cols cs keys c : guess (lookup cs) keys = Some c → c ∈ cs.
Proof.
  intros (ks1 & k & ks2 & _ & _ & Hhit)%guess_Some.
  by apply lookup_Some_elem in Hhit as [Hin _].
Qed.

Lemma selectbox_guess cs keys :
  cs ≠ [] →
  ∃ c, selectbox cs (default_index cs (guess (lookup cs) keys)) = Some c
       ∧ c ∈ cs
       ∧ match guess (lookup cs) keys with
         | Some g => c = g
         | None => head cs = Some c
         end.
Proof.
  intros Hne.
  destruct (selectbox_default cs (guess (lookup cs) keys) Hne) as (c & Hc & Hin & Hg).
  exists c. split; [done|]. split; [done|].
  destruct (guess (lookup cs) keys) as [g|] eqn:E; [|done].
  apply Hg. by eapply guess_in_cols.
Qed.

Lemma default_selections_None df : cols df = [] → default_selections df = None.
Proof. unfold default_selections, selectbox. by intros ->. Qed.

Lemma default_selections_Some df :
  cols df ≠ [] →
  ∃ sel, default_selections df = Some sel
    ∧ (c_region sel ∈ cols df ∧ c_vend sel ∈ cols df
       ∧ c_unid sel ∈ cols df ∧ c_ventas sel ∈ cols df)
    ∧ (match guess_role keys_region df with
       | Some g => c_region sel = g | None => head (cols df) = Some (c_region sel)
       end
       ∧ match guess_role keys_vendedor df with
         | Some g => c_vend sel = g | None => head (cols df) = Some (c_vend sel)
         end
       ∧ match guess_role keys_unid df with
         | Some g => c_unid sel = g | None => head (cols df) = Some (c_unid sel)
         end
       ∧ match guess_role keys_ventas df with
         | Some g => c_ventas sel = g | None => head (cols df) = Some (c_ventas sel)
         end)
    ∧ use_fecha sel = truthy (guess_role keys_fecha df)
    ∧ c_fecha sel = if use_fecha sel then guess_role keys_fecha df else None.
Proof.
  intros Hne. unfold default_selections, guess_role.
  remember (guess (lookup (cols df)) keys_fecha) as gf eqn:Ef. symmetry in Ef.
  destruct (selectbox_guess (cols df) keys_region Hne) as (r & -> & Hr & Gr).
  destruct (selectbox_guess (cols df) keys_vendedor Hne) as (v & -> & Hv & Gv).
  destruct (selectbox_guess (cols df) keys_unid Hne) as (u & -> & Hu & Gu).
  destruct (selectbox_guess (cols df) keys_ventas Hne) as (s & -> & Hs & Gs).
  simpl. eexists. split; [done|]. simpl. split; [done|]. split; [done|].
  split; [done|].
  destruct gf as [f|]; [|done].
  destruct (truthy (Some f)) eqn:Et; [|done].
  pose proof (guess_in_cols _ _ _ Ef) as Hf.
  rewrite bool_decide_eq_true_2 by done. simpl.
  unfold selectbox. by rewrite index_lookup.
Qed.

End DefaultFacts.

(** X1.  The select boxes have a pre-selected entry exactly when the sheet
    has a column with a text header, and then every pre-selected column,
    the date column included, is one of those columns. *)
Theorem default_selections_offered (df : DataFrame) :
  (is_Some (default_selections df) ↔ cols df ≠ [])
  ∧ ∀ sel, default_selections df = Some sel →
      LStr (c_region sel) ∈ labels df ∧ LStr (c_vend sel) ∈ labels df
      ∧ LStr (c_unid sel) ∈ labels df ∧ LStr (c_ventas sel) ∈ labels df
      ∧ (∀ f, c_fecha sel = Some f → use_fecha sel = true ∧ LStr f ∈ labels df).
Proof.
  destruct (decide (cols df = [])) as [He|Hne].
  - rewrite (default_selections_None df He). split; [|done].
    split; [by intros [? ?]|done].
  - destruct (default_selections_Some df Hne)
      as (sel & -> & (Hr & Hv & Hu & Hs) & _ & Huf & Hcf).
    split; [split; [done|eauto]|].
    intros ? [= <-]. rewrite <- !cols_elem. split_and!; [done..|].
    intros f Hf. rewrite Hcf in Hf. destruct (use_fecha sel); [|done].
    split; [done|]. apply cols_elem. by apply (guess_in_cols _ keys_fecha).
Qed.

(** X2.  Each pre-selected column is the column the guesser found for the
    role, and the first text-headed column of the sheet when it found none;
    the date box is ticked exactly when a date column was guessed, and then
    holds that column. *)
Theorem default_selections_follow_guess (df : DataFrame) (sel : Selections) :
  default_selections df = Some sel →
  match guess_role keys_region df with
  | Some g => c_region sel = g | None => head (cols df) = Some (c_region sel)
  end
  ∧ match guess_role keys_vendedor df with
    | Some g => c_vend sel = g | None => head (cols df) = Some (c_vend sel)
    end
  ∧ match guess_role keys_unid df with
    | Some g => c_unid sel = g | None => head (cols df) = Some (c_unid sel)
    end
  ∧ match guess_role keys_ventas df with
    | Some g => c_ventas sel = g | None => head (cols df) = Some (c_ventas sel)
    end
  ∧ use_fecha sel = truthy (guess_role keys_fecha df)
  ∧ c_fecha sel = (if use_fecha sel then guess_role keys_fecha df else None).
Proof.
  intros Hsel.
  destruct (decide (cols df = [])) as [He|Hne];
    [by rewrite (default_selections_None df He) in Hsel|].
  destruct (default_selections_Some df Hne)
    as (sel' & Hsel' & _ & (Gr & Gv & Gu & Gs) & Huf & Hcf).
  rewrite Hsel in Hsel'. by simplify_eq.
Qed.

Lemma default_selections_follow_guess_witness :
  default_selections plain_frame = Some plain_selections
  ∧ match guess_role keys_region plain_frame with
    | Some g => c_region plain_selections = g
    | None => head (cols plain_frame) = Some (c_region plain_selections)
    end
    ∧ match guess_role keys_vendedor plain_frame with
      | Some g => c_vend plain_selections = g
      | None => head (cols plain_frame) = Some (c_vend plain_selections)
      end
    ∧ match guess_role keys_unid plain_frame with
      | Some g => c_unid plain_selections = g
      | None => head (cols plain_frame) = Some (c_unid plain_selections)
      end
    ∧ match guess_role keys_ventas plain_frame with
      | Some g => c_ventas plain_selections = g
      | None => head (cols plain_frame) = Some (c_ventas plain_selections)
      end
    ∧ use_fecha plain_selections = truthy (guess_role keys_fecha plain_frame)
    ∧ c_fecha plain_selections
      = (if use_fecha plain_selections
         then guess_role keys_fecha plain_frame else None).
Proof.
  assert (default_selections plain_frame = Some plain_selections) as H
    by (by vm_compute).
  split; [exact H|].
  exact (default_selections_follow_guess plain_frame plain_selections H).
Defined.

Section KeywordFacts.

Lemma guess_keyword_header (cs keys : list string) (k : string) :
  normalized k = k → k ∈ keys → k ∈ cs → is_Some (guess (lookup cs) keys).
Proof.
  intros Hn Hk Hc. destruct (guess (lookup cs) keys) as [c|] eqn:E; [by eexists|].
  pose proof (proj1 (guess_None _ _) E k Hk) as Hl.
  by destruct (proj1 (lookup_None cs k) Hl k Hc).
Qed.

End KeywordFacts.

(** X3.  A sheet that has one of a role's keywords as a header, written
    as in the keyword list, gets a guess for that role: every keyword of
    the five lists is its own lower-cased, trimmed form. *)
Theorem keyword_header_guessed (df : DataFrame) (k : string) :
  (k ∈ keys_region → LStr k ∈ labels df → is_Some (guess_role keys_region df))
  ∧ (k ∈ keys_vendedor → LStr k ∈ labels df → is_Some (guess_role keys_vendedor df))
  ∧ (k ∈ keys_unid → LStr k ∈ labels df → is_Some (guess_role keys_unid df))
  ∧ (k ∈ keys_ventas → LStr k ∈ labels df → is_Some (guess_role keys_ventas df))
  ∧ (k ∈ keys_fecha → LStr k ∈ labels df → is_Some (guess_role keys_fecha df)).
Proof.
  pose proof keywords_normalized as Hall. rewrite Forall_forall in Hall.
  unfold guess_role.
  split_and!; intros Hk Hin%cols_elem;
    (apply (guess_keyword_header _ _ k); [|done|done]);
    apply Hall; rewrite !elem_of_app; tauto.
Qed.

(** ** Renaming and the outcomes of the mapping stage *)

Section OutcomeFacts.
Variable to_datetime : Series → Series.
Implicit Types (df : DataFrame) (sel : Selections) (name : string).

Lemma rename_map_None sel s :
  rename_map sel !! s = None ↔ s ∉ (assignments sel).*1.
Proof.
  rewrite rename_map_last. unfold last_assigned.
  rewrite fmap_last, fmap_None, last_None. split.
  - intros Hnil ((c & v) & Hc & Hin)%list_elem_of_fmap. simpl in Hc. subst c.
    assert ((s, v) ∈ filter (λ p : string * string, p.1 = s) (assignments sel)) as Hf
      by (by apply list_elem_of_filter).
    rewrite Hnil in Hf. by apply elem_of_nil in Hf.
  - intros Hno. apply elem_of_nil_inv. intros [c v] [Hc Hin]%list_elem_of_filter.
    simpl in Hc. subst c. apply Hno. apply list_elem_of_fmap. by exists (s, v).
Qed.

Lemma rename_map_Some sel s t :
  rename_map sel !! s = Some t →
  t ∈ ["region"; "vendedor"; "unidades"; "ventas"; "fecha"].
Proof.
  rewrite rename_map_last. unfold last_assigned. rewrite fmap_last.
  destruct (last _) as [[c v]|] eqn:El; [|done]. intros [= <-].
  apply last_Some_elem_of, list_elem_of_filter in El as [_ Hin].
  unfold assignments in Hin. rewrite elem_of_app, !elem_of_cons in Hin.
  destruct Hin as [Hin|Hin].
  - destruct Hin as [?|[?|[?|[?|Hin]]]]; simplify_eq/=;
      [repeat constructor..|by apply elem_of_nil in Hin].
  - destruct (c_fecha sel) as [f|]; [|by apply elem_of_nil in Hin].
    destruct (use_fecha sel && truthy (Some f)); [|by apply elem_of_nil in Hin].
    apply list_elem_of_singleton in Hin. simplify_eq/=. repeat constructor.
Qed.

Lemma getitem_length df name :
  length (filter (λ c : label * Series, c.1 = LStr name) df).*2
  = occurrences name df.
Proof.
  unfold occurrences, labels. rewrite length_fmap.
  induction df as [|[l s] df IH]; [done|].
  rewrite fmap_cons, !filter_cons. simpl.
  destruct (decide (l = LStr name)); simpl; by rewrite IH.
Qed.

Lemma getitem_NoColumn df name :
  getitem df name = NoColumn ↔ occurrences name df = 0.
Proof.
  rewrite <- getitem_length. unfold getitem.
  by destruct ((filter _ df).*2) as [|s1 [|s2 ss]].
Qed.

Lemma getitem_OneColumn df name :
  (∃ s, getitem df name = OneColumn s) ↔ occurrences name df = 1.
Proof.
  rewrite <- getitem_length. unfold getitem.
  destruct ((filter _ df).*2) as [|s1 [|s2 ss]]; simpl;
    (split; [by intros [? ?]|intros ?; by eauto]).
Qed.

Lemma getitem_ManyColumns df name :
  (∃ ss, getitem df name = ManyColumns ss) ↔ (2 ≤ occurrences name df)%nat.
Proof.
  rewrite <- getitem_length. unfold getitem.
  destruct ((filter _ df).*2) as [|s1 [|s2 ss]]; simpl.
  - split; [by intros [? ?]|lia].
  - split; [by intros [? ?]|lia].
  - split; [lia|by eauto].
Qed.

Lemma occurrences_labels df df' name :
  labels df' = labels df → occurrences name df' = occurrences name df.
Proof. unfold occurrences. by intros ->. Qed.

Lemma occurrences_elem df name :
  (0 < occurrences name df)%nat ↔ LStr name ∈ labels df.
Proof.
  unfold occurrences. split.
  - intros Hlen. destruct (filter _ (labels df)) as [|l ls] eqn:E; [simpl in Hlen; lia|].
    assert (l ∈ filter (λ l, l = LStr name) (labels df)) as Hin
      by (rewrite E; by left).
    by apply list_elem_of_filter in Hin as [-> ?].
  - intros Hin.
    assert (LStr name ∈ filter (λ l, l = LStr name) (labels df)) as Hf
      by (by apply list_elem_of_filter).
    destruct (filter _ (labels df)); [by apply elem_of_nil in Hf|simpl; lia].
Qed.

Lemma coerce_cases f many name df :
  (occurrences name df = 0 ∧ coerce f many name df = Raise (KeyError name))
  ∨ (occurrences name df = 1
     ∧ ∃ s, getitem df name = OneColumn s
            ∧ coerce f many name df = Ok (setitem df name (f s)))
  ∨ ((2 ≤ occurrences name df)%nat ∧ coerce f many name df = Raise many).
Proof.
  unfold coerce. destruct (getitem df name) as [|s|ss] eqn:E.
  - left. split; [by apply getitem_NoColumn|done].
  - right. left. split; [apply getitem_OneColumn; by eauto|by eauto].
  - right. right. split; [apply getitem_ManyColumns; by eauto|done].
Qed.

End OutcomeFacts.

Section MappingOutcome.
Variable to_datetime : Series → Series.
Implicit Types (df : DataFrame) (sel : Selections) (name : string).

Lemma elem_of_needed c :
  c ∈ needed ↔ c = "region" ∨ c = "vendedor" ∨ c = "unidades" ∨ c = "ventas".
Proof.
  unfold needed. rewrite !elem_of_union, !elem_of_singleton. tauto.
Qed.

Lemma elem_of_absent df c :
  c ∈ absent df ↔ c ∈ needed ∧ LStr c ∉ labels df.
Proof. unfold absent. rewrite elem_of_filter. tauto. Qed.

Lemma absent_empty df :
  absent df = ∅ ↔
  LStr "region" ∈ labels df ∧ LStr "vendedor" ∈ labels df
  ∧ LStr "unidades" ∈ labels df ∧ LStr "ventas" ∈ labels df.
Proof.
  split.
  - intros He.
    assert (∀ c, c ∈ needed → LStr c ∈ labels df) as Hall.
    { intros c Hc. destruct (decide (LStr c ∈ labels df)) as [|Hno]; [done|].
      assert (c ∈ absent df) as Hin.
      { apply elem_of_absent. split; assumption. }
      rewrite He in Hin. destruct (not_elem_of_empty c Hin). }
    split; [|split; [|split]]; apply Hall, elem_of_needed; tauto.
  - intros (Hr & Hv & Hu & Hs). apply leibniz_equiv, elem_of_equiv_empty.
    intros c [Hc Hno]%elem_of_absent. apply Hno.
    apply elem_of_needed in Hc as [->|[->|[->| ->]]]; assumption.
Qed.

(** Every way lines 54-70 can end, by the number of columns that carry
    the labels [unidades], [ventas] and [fecha] after the renaming. *)
Lemma mapping_cases df sel :
  (occurrences "unidades" (rename (rename_map sel) df) = 0
   ∧ mapping to_datetime df sel = Raise (KeyError "unidades"))
  ∨ ((2 ≤ occurrences "unidades" (rename (rename_map sel) df))%nat
     ∧ mapping to_datetime df sel = Raise TypeError)
  ∨ (occurrences "unidades" (rename (rename_map sel) df) = 1
     ∧ ((occurrences "ventas" (rename (rename_map sel) df) = 0
         ∧ mapping to_datetime df sel = Raise (KeyError "ventas"))
        ∨ ((2 ≤ occurrences "ventas" (rename (rename_map sel) df))%nat
           ∧ mapping to_datetime df sel = Raise TypeError)
        ∨ (occurrences "ventas" (rename (rename_map sel) df) = 1
           ∧ (((2 ≤ occurrences "fecha" (rename (rename_map sel) df))%nat
               ∧ mapping to_datetime df sel = Raise ValueError)
              ∨ ((occurrences "fecha" (rename (rename_map sel) df) ≤ 1)%nat
                 ∧ ((absent (rename (rename_map sel) df) ≠ ∅
                     ∧ mapping to_datetime df sel
                       = Stop (ErrorMissing (absent (rename (rename_map sel) df))))
                    ∨ (absent (rename (rename_map sel) df) = ∅
                       ∧ ∃ df', mapping to_datetime df sel = Ok df'
                                ∧ labels df' = labels (rename (rename_map sel) df)))))))).
Proof.
  unfold mapping, mapping_with.
  change (λ df0 : DataFrame,
            if decide (filter (λ c, LStr c ∉ labels df0) needed = ∅)
            then Ok df0
            else Stop (ErrorMissing (filter (λ c, LStr c ∉ labels df0) needed)))
    with (λ df0 : DataFrame,
            if decide (absent df0 = ∅) then Ok df0
            else Stop (ErrorMissing (absent df0))).
  set (R := rename (rename_map sel) df).
  destruct (coerce_cases Normalizer.to_numeric TypeError "unidades" R)
    as [[Hu ->]|[(Hu & u & _ & ->)|[Hu ->]]]; simpl; [by left|..|by right; left].
  right. right. split; [done|].
  set (df1 := setitem R "unidades" (Normalizer.to_numeric u)).
  assert (labels df1 = labels R) as L1 by apply labels_setitem.
  destruct (coerce_cases Normalizer.to_numeric TypeError "ventas" df1)
    as [[Hv ->]|[(Hv & v & _ & ->)|[Hv ->]]];
    rewrite (occurrences_labels _ _ _ L1) in Hv; simpl;
    [by left|..|by right; left].
  right. right. split; [done|].
  set (df2 := setitem df1 "ventas" (Normalizer.to_numeric v)).
  assert (labels df2 = labels R) as L2
    by (unfold df2; by rewrite labels_setitem).
  assert (∀ df3 : DataFrame, labels df3 = labels R →
            (absent R ≠ ∅
             ∧ (if decide (absent df3 = ∅) then Ok df3
                else Stop (ErrorMissing (absent df3)))
               = Stop (ErrorMissing (absent R)))
            ∨ (absent R = ∅
               ∧ ∃ df', (if decide (absent df3 = ∅) then Ok df3
                         else Stop (ErrorMissing (absent df3))) = Ok df'
                        ∧ labels df' = labels R)) as Hcheck.
  { intros df3 L3. rewrite (absent_labels _ _ L3).
    case_decide; [right|left]; eauto. }
  case_decide as Hf.
  - destruct (coerce_cases to_datetime ValueError "fecha" df2)
      as [[Hn _]|[(Hn & f & _ & ->)|[Hn ->]]];
      rewrite (occurrences_labels _ _ _ L2) in Hn; simpl.
    + rewrite L2 in Hf. apply occurrences_elem in Hf. lia.
    + right. split; [lia|]. apply Hcheck. by rewrite labels_setitem.
    + by left.
  - right. split; [|by apply Hcheck].
    rewrite L2 in Hf.
    destruct (occurrences "fecha" R) as [|n] eqn:En; [lia|].
    destruct Hf. apply occurrences_elem. lia.
Qed.

End MappingOutcome.

(** X4.  The renaming keeps every column and its cells; a column that no
    role chose, and any column whose header is not text, keeps its header;
    a chosen column gets one of the five canonical names. *)
Theorem rename_keeps_columns (sel : Selections) (df : DataFrame) :
  length (rename (rename_map sel) df) = length df
  ∧ (rename (rename_map sel) df).*2 = df.*2
  ∧ (∀ i z, labels df !! i = Some (LInt z) →
       labels (rename (rename_map sel) df) !! i = Some (LInt z))
  ∧ (∀ i s, labels df !! i = Some (LStr s) → s ∉ (assignments sel).*1 →
       labels (rename (rename_map sel) df) !! i = Some (LStr s))
  ∧ (∀ i s, labels df !! i = Some (LStr s) → s ∈ (assignments sel).*1 →
       ∃ t, labels (rename (rename_map sel) df) !! i = Some (LStr t)
            ∧ t ∈ ["region"; "vendedor"; "unidades"; "ventas"; "fecha"]).
Proof.
  split_and!.
  - unfold rename. apply length_fmap.
  - unfold rename. rewrite <- list_fmap_compose. apply list_fmap_ext.
    by intros i [l s].
  - intros i z Hi. by rewrite labels_rename, list_lookup_fmap, Hi.
  - intros i s Hi Hs. rewrite labels_rename, list_lookup_fmap, Hi. simpl.
    by rewrite (proj2 (rename_map_None sel s) Hs).
  - intros i s Hi Hs. rewrite labels_rename, list_lookup_fmap, Hi. simpl.
    destruct (rename_map sel !! s) as [t|] eqn:Et.
    + exists t. split; [done|]. by eapply rename_map_Some.
    + by apply rename_map_None in Et.
Qed.

(** X5.  The exceptions of the mapping stage.  After the renaming: no
    column [unidades] gives [KeyError] on [unidades]; several give
    [TypeError]; with exactly one, no column [ventas] gives [KeyError] on
    [ventas] and several give [TypeError]; with exactly one of each, several
    columns [fecha] give [ValueError]. *)
Theorem mapping_raises (to_datetime : Series → Series) (df : DataFrame)
    (sel : Selections) :
  (occurrences "unidades" (rename (rename_map sel) df) = 0 →
   mapping to_datetime df sel = Raise (KeyError "unidades"))
  ∧ ((2 ≤ occurrences "unidades" (rename (rename_map sel) df))%nat →
     mapping to_datetime df sel = Raise TypeError)
  ∧ (occurrences "unidades" (rename (rename_map sel) df) = 1 →
     occurrences "ventas" (rename (rename_map sel) df) = 0 →
     mapping to_datetime df sel = Raise (KeyError "ventas"))
  ∧ (occurrences "unidades" (rename (rename_map sel) df) = 1 →
     (2 ≤ occurrences "ventas" (rename (rename_map sel) df))%nat →
     mapping to_datetime df sel = Raise TypeError)
  ∧ (occurrences "unidades" (rename (rename_map sel) df) = 1 →
     occurrences "ventas" (rename (rename_map sel) df) = 1 →
     (2 ≤ occurrences "fecha" (rename (rename_map sel) df))%nat →
     mapping to_datetime df sel = Raise ValueError).
Proof.
  destruct (mapping_cases to_datetime df sel)
    as [[U E]|[[U E]|(U & [[V E]|[[V E]|(V & [[F E]|(F & [[A E]|(A & df' & E & L)])])]])]];
    split_and!; intros; first [exact E | lia].
Qed.

(** X6.  The mapping stage stops with the missing-columns error exactly
    when the renamed frame has one column [unidades], one column [ventas],
    at most one column [fecha], and lacks [region] or [vendedor]; the error
    then lists the required columns the renamed frame lacks, which are
    among [region] and [vendedor]. *)
Theorem mapping_stops_iff (to_datetime : Series → Series) (df : DataFrame)
    (sel : Selections) (m : message) :
  mapping to_datetime df sel = Stop m ↔
  occurrences "unidades" (rename (rename_map sel) df) = 1
  ∧ occurrences "ventas" (rename (rename_map sel) df) = 1
  ∧ (occurrences "fecha" (rename (rename_map sel) df) ≤ 1)%nat
  ∧ (LStr "region" ∉ labels (rename (rename_map sel) df)
     ∨ LStr "vendedor" ∉ labels (rename (rename_map sel) df))
  ∧ m = ErrorMissing (absent (rename (rename_map sel) df))
  ∧ ∀ c, c ∈ absent (rename (rename_map sel) df) → c = "region" ∨ c = "vendedor".
Proof.
  set (R := rename (rename_map sel) df).
  assert (occurrences "unidades" R = 1 → occurrences "ventas" R = 1 →
          (absent R ≠ ∅ ↔ LStr "region" ∉ labels R ∨ LStr "vendedor" ∉ labels R)
          ∧ ∀ c, c ∈ absent R → c = "region" ∨ c = "vendedor") as Habs.
  { intros U V.
    assert (LStr "unidades" ∈ labels R) as Hu by (apply occurrences_elem; lia).
    assert (LStr "ventas" ∈ labels R) as Hv by (apply occurrences_elem; lia).
    split.
    - rewrite absent_empty.
      destruct (decide (LStr "region" ∈ labels R)),
        (decide (LStr "vendedor" ∈ labels R)); tauto.
    - intros c [Hc Hno]%elem_of_absent.
      apply elem_of_needed in Hc as [->|[->|[->| ->]]]; tauto. }
  destruct (mapping_cases to_datetime df sel)
    as [[U E]|[[U E]|(U & [[V E]|[[V E]|(V & [[F E]|(F & [[A E]|(A & df' & E & L)])])]])]];
    fold R in U, E; try fold R in V; try fold R in F; rewrite E;
    try (split; [discriminate|intros (? & ? & ? & _); lia]).
  - destruct (Habs U V) as [Hiff Hsub]. split.
    + intros [= <-].
      split; [exact U|]. split; [exact V|]. split; [exact F|].
      split; [by apply Hiff|]. split; [reflexivity|exact Hsub].
    + intros (_ & _ & _ & _ & -> & _). reflexivity.
  - destruct (Habs U V) as [Hiff Hsub]. split; [discriminate|].
    intros (_ & _ & _ & Hno%Hiff & _). destruct (Hno A).
Qed.

(** X7.  The mapping stage hands a frame on to the filters exactly when
    the renamed frame has one column [unidades], one column [ventas], at
    most one column [fecha], and columns [region] and [vendedor]. *)
Theorem mapping_succeeds_iff (to_datetime : Series → Series) (df : DataFrame)
    (sel : Selections) :
  (∃ df', mapping to_datetime df sel = Ok df') ↔
  occurrences "unidades" (rename (rename_map sel) df) = 1
  ∧ occurrences "ventas" (rename (rename_map sel) df) = 1
  ∧ (occurrences "fecha" (rename (rename_map sel) df) ≤ 1)%nat
  ∧ LStr "region" ∈ labels (rename (rename_map sel) df)
  ∧ LStr "vendedor" ∈ labels (rename (rename_map sel) df).
Proof.
  set (R := rename (rename_map sel) df).
  destruct (mapping_cases to_datetime df sel)
    as [[U E]|[[U E]|(U & [[V E]|[[V E]|(V & [[F E]|(F & [[A E]|(A & df' & E & L)])])]])]];
    fold R in U, E; try fold R in V; try fold R in F; rewrite E.
  - split; [intros [? ?]; discriminate|]. intros (U' & _). rewrite U in U'. discriminate.
  - split; [intros [? ?]; discriminate|]. intros (U' & _). rewrite U' in U. lia.
  - split; [intros [? ?]; discriminate|]. intros (_ & V' & _). rewrite V in V'. discriminate.
  - split; [intros [? ?]; discriminate|]. intros (_ & V' & _). rewrite V' in V. lia.
  - split; [intros [? ?]; discriminate|]. intros (_ & _ & F' & _).
    clear -F F'. lia.
  - split; [intros [? ?]; discriminate|]. intros (_ & _ & _ & Hr & Hv).
    destruct A. apply absent_empty.
    split; [exact Hr|]. split; [exact Hv|].
    split; apply occurrences_elem; fold R; [rewrite U|rewrite V]; apply Nat.lt_0_1.
  - split; [|intros _; exists df'; reflexivity].
    intros _. apply absent_empty in A as (Hr & Hv & _ & _).
    split; [exact U|]. split; [exact V|]. split; [exact F|].
    split; assumption.
Qed.

Section SetitemFacts.
Implicit Types (df : DataFrame) (name : string) (s : Series).

Lemma filter_setitem df name name' s :
  filter (λ c : label * Series, c.1 = LStr name') (setitem df name s)
  = (λ c : label * Series, if decide (c.1 = LStr name) then (c.1, s) else c)
      <$> filter (λ c : label * Series, c.1 = LStr name') df.
Proof.
  unfold setitem. induction df as [|[l c] df IH]; [done|].
  rewrite fmap_cons, !filter_cons. simpl.
  destruct (decide (l = LStr name)) as [->|Hl]; simpl;
    destruct (decide (_ = LStr name')); simpl; rewrite IH; try done.
  - by rewrite decide_True.
  - by rewrite decide_False.
Qed.

Lemma getitem_setitem_ne df name name' s :
  name ≠ name' → getitem (setitem df name s) name' = getitem df name'.
Proof.
  intros Hne. unfold getitem. rewrite filter_setitem.
  rewrite (list_fmap_ext _ id _); [by rewrite list_fmap_id|].
  intros i [l c] Hin%list_elem_of_lookup_2%list_elem_of_filter. simpl in *.
  destruct Hin as [-> _]. rewrite decide_False; [done|]. by intros [= ->].
Qed.

Lemma getitem_setitem_eq df name s0 s :
  getitem df name = OneColumn s0 → getitem (setitem df name s) name = OneColumn s.
Proof.
  unfold getitem. rewrite filter_setitem.
  destruct (filter _ df) as [|[l c] [|c2 cs]] eqn:E; simpl; try done.
  - intros _.
    assert ((l, c) ∈ filter (λ c : label * Series, c.1 = LStr name) df) as Hin
      by (rewrite E; by left).
    apply list_elem_of_filter in Hin as [Hl _]. simpl in Hl. subst l.
    by rewrite decide_True.
Qed.

End SetitemFacts.

Lemma bind_Ok {A B : Type} (x : outcome A) (f : A → outcome B) (b : B) :
  bind x f = Ok b → ∃ a, x = Ok a ∧ f a = Ok b.
Proof. destruct x as [a|e|m]; simpl; [by eauto|discriminate..]. Qed.

Lemma coerce_Ok_inv f many name (df df1 : DataFrame) :
  coerce f many name df = Ok df1 →
  ∃ s, getitem df name = OneColumn s ∧ df1 = setitem df name (f s).
Proof.
  unfold coerce. destruct (getitem df name) as [|s|ss]; [discriminate| |discriminate].
  intros [= <-]. by exists s.
Qed.

(** X8.  When the mapping stage succeeds, the frame it hands on has the
    labels of the renamed frame; its columns [unidades] and [ventas] are
    those of the renamed frame after [to_numeric]; every column other than
    [unidades], [ventas] and [fecha] is untouched. *)
Theorem mapping_ok_columns (to_datetime : Series → Series) (df df' : DataFrame)
    (sel : Selections) :
  mapping to_datetime df sel = Ok df' →
  labels df' = labels (rename (rename_map sel) df)
  ∧ (∃ u, getitem (rename (rename_map sel) df) "unidades" = OneColumn u
          ∧ getitem df' "unidades" = OneColumn (Normalizer.to_numeric u))
  ∧ (∃ v, getitem (rename (rename_map sel) df) "ventas" = OneColumn v
          ∧ getitem df' "ventas" = OneColumn (Normalizer.to_numeric v))
  ∧ (∀ name, name ≠ "unidades" → name ≠ "ventas" → name ≠ "fecha" →
             getitem df' name = getitem (rename (rename_map sel) df) name).
Proof.
  unfold mapping, mapping_with. set (R := rename (rename_map sel) df).
  intros (df1 & (u & Eu & ->)%coerce_Ok_inv & H)%bind_Ok.
  apply bind_Ok in H as (df2 & (v & Ev & ->)%coerce_Ok_inv & H).
  apply bind_Ok in H as (df3 & H3 & H).
  set (df1 := setitem R "unidades" (Normalizer.to_numeric u)) in *.
  set (df2 := setitem df1 "ventas" (Normalizer.to_numeric v)) in *.
  assert (df' = df3) as ->.
  { revert H. case (decide _); intros _ H; [|discriminate H].
    injection H as <-. reflexivity. }
  clear H.
  assert (getitem R "ventas" = OneColumn v) as Ev'.
  { rewrite <- Ev. unfold df1. symmetry. by apply getitem_setitem_ne. }
  assert (getitem df2 "unidades" = OneColumn (Normalizer.to_numeric u)) as Eu2.
  { unfold df2. rewrite getitem_setitem_ne by done.
    unfold df1. by eapply getitem_setitem_eq. }
  assert (getitem df2 "ventas" = OneColumn (Normalizer.to_numeric v)) as Ev2.
  { unfold df2. by eapply getitem_setitem_eq. }
  assert (labels df2 = labels R) as L2.
  { unfold df2, df1. by rewrite !labels_setitem. }
  assert (∀ name, name ≠ "unidades" → name ≠ "ventas" →
                  getitem df2 name = getitem R name) as O2.
  { intros name H1 H2. unfold df2, df1.
    by rewrite !getitem_setitem_ne by done. }
  destruct (decide (LStr "fecha" ∈ labels df2)) as [Hf|Hf].
  - apply coerce_Ok_inv in H3 as (f & Ef & ->).
    split; [by rewrite labels_setitem|].
    split; [exists u; split; [done|by rewrite getitem_setitem_ne]|].
    split; [exists v; split; [done|by rewrite getitem_setitem_ne]|].
    intros name H1 H2 H4. rewrite getitem_setitem_ne by done. by apply O2.
  - injection H3 as <-.
    split; [done|]. split; [by exists u|]. split; [by exists v|].
    intros name H1 H2 _. by apply O2.
Qed.

Lemma mapping_ok_columns_witness :
  mapping keep_cells plain_frame plain_selections
  = Ok [(LStr "region", [CStr "Norte"]); (LStr "vendedor", [CStr "Ana"]);
        (LStr "unidades", [CNum (Q2Qc 3)]); (LStr "ventas", [CNum (Q2Qc 10.5)])]
  ∧ labels [(LStr "region", [CStr "Norte"]); (LStr "vendedor", [CStr "Ana"]);
            (LStr "unidades", [CNum (Q2Qc 3)]); (LStr "ventas", [CNum (Q2Qc 10.5)])]
    = labels (rename (rename_map plain_selections) plain_frame).
Proof.
  assert (mapping keep_cells plain_frame plain_selections
          = Ok [(LStr "region", [CStr "Norte"]); (LStr "vendedor", [CStr "Ana"]);
                (LStr "unidades", [CNum (Q2Qc 3)]);
                (LStr "ventas", [CNum (Q2Qc 10.5)])]) as H.
  { vm_compute. do 6 f_equal; repeat f_equal; apply Qc_is_canon; reflexivity. }
  split; [exact H|].
  exact (proj1 (mapping_ok_columns keep_cells plain_frame _ plain_selections H)).
Defined.

(** ** Orders on texts and on group keys *)

Section OrderFacts.

Lemma compare_not_Gt_trans (s t u : string) :
  String.compare s t ≠ Gt → String.compare t u ≠ Gt → String.compare s u ≠ Gt.
Proof.
  revert t u. induction s as [|a s IH]; intros [|b t] [|c u]; simpl; try done.
  unfold Ascii.compare.
  destruct (N.compare_spec (N_of_ascii a) (N_of_ascii b)) as [Hab|Hab|Hab],
    (N.compare_spec (N_of_ascii b) (N_of_ascii c)) as [Hbc|Hbc|Hbc],
    (N.compare_spec (N_of_ascii a) (N_of_ascii c)) as [Hac|Hac|Hac];
    try done; try lia.
  apply IH.
Qed.

Lemma str_le_compare (s t : string) : str_le s t ↔ String.compare s t ≠ Gt.
Proof. unfold str_le, String.leb. by destruct (String.compare s t). Qed.

#[global] Instance str_le_trans : Transitive str_le.
Proof. intros s t u. rewrite !str_le_compare. apply compare_not_Gt_trans. Qed.

#[global] Instance str_le_total : Total str_le.
Proof.
  intros s t. unfold str_le.
  destruct (String.leb_total s t) as [->| ->]; [by left|by right].
Qed.

#[global] Instance str_le_antisym : AntiSymm eq str_le.
Proof.
  intros s t Hst Hts. unfold str_le in *.
  apply String.leb_antisym; by apply Is_true_true.
Qed.

#[global] Instance key_le_trans : Transitive key_le.
Proof.
  intros [|x|s] [|y|t] [|z|u]; simpl; try done.
  - apply Qcle_trans.
  - apply str_le_trans.
Qed.

#[global] Instance key_le_total : Total key_le.
Proof.
  intros [|x|s] [|y|t]; simpl; try tauto.
  - apply Qc_le_total.
  - apply str_le_total.
Qed.

#[global] Instance key_le_antisym : AntiSymm eq key_le.
Proof.
  intros [|x|s] [|y|t]; simpl; try done.
  - intros H1 H2. f_equal. by apply Qcle_antisym.
  - intros H1 H2. f_equal. by apply str_le_antisym.
Qed.

Lemma sorted_StronglySorted (l : list string) : StronglySorted str_le (sorted l).
Proof. unfold sorted. apply StronglySorted_merge_sort; apply _. Qed.

Lemma sorted_NoDup (l : list string) : NoDup l → NoDup (sorted l).
Proof. unfold sorted. by rewrite merge_sort_Permutation. Qed.

End OrderFacts.

(** ** The selectors and the filtered table *)

Section SelectorFacts.
Context {num : Type}.
Variable str_num : Qc → string.
Implicit Types (df : Table num) (r : Row num) (reg_sel vend_sel : string).

Lemma options_sorted (s : list cell) :
  StronglySorted str_le (options str_num s) ∧ NoDup (options str_num s).
Proof.
  unfold options. split; [apply sorted_StronglySorted|].
  apply sorted_NoDup, unique_NoDup.
Qed.

Lemma df_f_filter df reg_sel vend_sel :
  df_f str_num df reg_sel vend_sel = filter (retained str_num reg_sel vend_sel) df.
Proof.
  unfold df_f. rewrite mask_rows, loc_fmap.
  apply list_filter_iff. intros r. apply row_mask_retained.
Qed.

Lemma filter_all {A : Type} (P : A → Prop) `{∀ x, Decision (P x)} (l : list A) :
  (∀ x, x ∈ l → P x) → filter P l = l.
Proof.
  induction l as [|x l IH]; intros Hall; [done|].
  rewrite filter_cons, decide_True by (apply Hall; by left).
  f_equal. apply IH. intros y Hy. apply Hall. by right.
Qed.

Lemma origen_elem df reg_sel r :
  r ∈ origen str_num df reg_sel ↔
  r ∈ df ∧ (reg_sel = "(Todas)" ∨ astype_str str_num (region r) = reg_sel).
Proof.
  destruct (decide (reg_sel = "(Todas)")) as [->|Hne].
  - unfold origen. rewrite decide_True by done. tauto.
  - rewrite origen_filter, list_elem_of_filter by done. tauto.
Qed.

End SelectorFacts.

(** X11.  Both selectors list the "no filter" entry first and then their
    values in increasing order without repetition; the values of the region
    selector are the regions, as text, of the rows that have one. *)
Theorem selectors_sorted {num : Type} (str_num : Qc → string)
    (df : Table num) (reg_sel : string) :
  head (reg_opts str_num df) = Some "(Todas)"
  ∧ StronglySorted str_le (tail (reg_opts str_num df))
  ∧ NoDup (tail (reg_opts str_num df))
  ∧ (∀ o, o ∈ tail (reg_opts str_num df) ↔
          ∃ r, r ∈ df ∧ region r ≠ CNull ∧ astype_str str_num (region r) = o)
  ∧ head (vend_opts str_num df reg_sel) = Some "(Todos)"
  ∧ StronglySorted str_le (tail (vend_opts str_num df reg_sel))
  ∧ NoDup (tail (vend_opts str_num df reg_sel)).
Proof.
  unfold reg_opts, vend_opts. simpl.
  destruct (options_sorted str_num (region <$> df)) as [S1 N1].
  destruct (options_sorted str_num (vendedor <$> origen str_num df reg_sel)) as [S2 N2].
  split_and!; try done.
  intros o. rewrite elem_of_options. split.
  - intros (c & (r & -> & Hin)%list_elem_of_fmap & Hc & Ho). eauto.
  - intros (r & Hin & Hc & Ho). exists (region r). split; [|done].
    apply list_elem_of_fmap. eauto.
Qed.

(** X12.  Filtering twice with the same choices is filtering once. *)
Theorem df_f_idempotent {num : Type} (str_num : Qc → string)
    (df : Table num)
    (reg_sel vend_sel : string) :
  df_f str_num (df_f str_num df reg_sel vend_sel) reg_sel vend_sel
  = df_f str_num df reg_sel vend_sel.
Proof.
  rewrite !df_f_filter. by apply list_filter_filter_r.
Qed.

(** X13.  With both choices on "no filter" the table is unchanged, and
    filtering by region and by salesperson at once is filtering by one and
    then by the other, in either order. *)
Theorem df_f_compose {num : Type} (str_num : Qc → string)
    (df : Table num)
    (reg_sel vend_sel : string) :
  df_f str_num df "(Todas)" "(Todos)" = df
  ∧ df_f str_num (df_f str_num df reg_sel "(Todos)") "(Todas)" vend_sel
    = df_f str_num df reg_sel vend_sel
  ∧ df_f str_num (df_f str_num df "(Todas)" vend_sel) reg_sel "(Todos)"
    = df_f str_num df reg_sel vend_sel.
Proof.
  rewrite !df_f_filter, !list_filter_filter. split_and!.
  - apply filter_all. intros r _. unfold retained. tauto.
  - apply list_filter_iff. unfold retained. tauto.
  - apply list_filter_iff. unfold retained. tauto.
Qed.

(** X14.  Every combination the two selectors offer keeps at least one row
    of a table that has rows: a region entry is the region of some row, and
    a salesperson entry is the salesperson of some row of that region. *)
Theorem offered_choice_keeps_rows {num : Type} (str_num : Qc → string)
    (df : Table num)
    (reg_sel vend_sel : string) :
  df ≠ [] →
  reg_sel ∈ reg_opts str_num df →
  vend_sel ∈ vend_opts str_num df reg_sel →
  df_f str_num df reg_sel vend_sel ≠ [].
Proof.
  intros Hdf Hreg Hvend.
  assert (∃ r, r ∈ origen str_num df reg_sel) as [r0 Hr0].
  { destruct (decide (reg_sel = "(Todas)")) as [->|Hne].
    - destruct df as [|r df]; [done|]. exists r. apply origen_elem.
      split; [by left|by left].
    - unfold reg_opts in Hreg. apply elem_of_cons in Hreg as [?|Hreg]; [done|].
      apply elem_of_options in Hreg
        as (c & (r & -> & Hin)%list_elem_of_fmap & _ & Ho).
      exists r. apply origen_elem. by eauto. }
  assert (∃ r, r ∈ origen str_num df reg_sel
               ∧ (vend_sel = "(Todos)" ∨ astype_str str_num (vendedor r) = vend_sel))
    as (r & Hr & Hv).
  { unfold vend_opts in Hvend. apply elem_of_cons in Hvend as [->|Hvend].
    - exists r0. by eauto.
    - apply elem_of_options in Hvend
        as (c & (r & -> & Hin)%list_elem_of_fmap & _ & Ho).
      exists r. by eauto. }
  apply origen_elem in Hr as [Hin Hreg'].
  assert (r ∈ df_f str_num df reg_sel vend_sel) as Hf.
  { rewrite df_f_filter. apply list_elem_of_filter. by split. }
  intros He. rewrite He in Hf. by apply elem_of_nil in Hf.
Qed.

Lemma offered_choice_keeps_rows_witness :
  example_table ≠ []
  ∧ "North" ∈ reg_opts no_numbers example_table
  ∧ "Beto" ∈ vend_opts no_numbers example_table "North"
  ∧ df_f no_numbers example_table "North" "Beto" ≠ [].
Proof.
  assert (example_table ≠ []) as H1 by done.
  assert ("North" ∈ reg_opts no_numbers example_table) as H2
    by (vm_compute; repeat constructor).
  assert ("Beto" ∈ vend_opts no_numbers example_table "North") as H3
    by (vm_compute; repeat constructor).
  split; [exact H1|]. split; [exact H2|]. split; [exact H3|].
  exact (offered_choice_keeps_rows no_numbers example_table "North" "Beto" H1 H2 H3).
Defined.

(** X15.  Choosing a region only narrows the salesperson selector: every
    entry offered under a region is also offered under "no filter", where
    the entries are the salespersons, as text, of all the rows that have
    one. *)
Theorem vend_opts_narrows {num : Type} (str_num : Qc → string)
    (df : Table num) (R o : string) :
  (o ∈ vend_opts str_num df "(Todas)" ↔
   o = "(Todos)"
   ∨ ∃ r, r ∈ df ∧ vendedor r ≠ CNull ∧ astype_str str_num (vendedor r) = o)
  ∧ (o ∈ vend_opts str_num df R → o ∈ vend_opts str_num df "(Todas)").
Proof.
  assert (∀ R', o ∈ vend_opts str_num df R' ↔
            o = "(Todos)"
            ∨ ∃ r, r ∈ origen str_num df R' ∧ vendedor r ≠ CNull
                   ∧ astype_str str_num (vendedor r) = o) as Hopts.
  { intros R'. unfold vend_opts. rewrite elem_of_cons, elem_of_options.
    apply or_iff_compat_l. split.
    - intros (c & (r & -> & Hin)%list_elem_of_fmap & Hc & Ho). eauto.
    - intros (r & Hin & Hc & Ho). exists (vendedor r). split; [|done].
      apply list_elem_of_fmap. eauto. }
  split.
  - rewrite Hopts. apply or_iff_compat_l.
    split; intros (r & Hin & H); exists r; (split; [|done]).
    + by apply origen_elem in Hin as [? _].
    + apply origen_elem. by eauto.
  - rewrite !Hopts. intros [->|(r & Hin & H)]; [by left|right].
    exists r. split; [|done]. apply origen_elem in Hin as [? _].
    apply origen_elem. by eauto.
Qed.

(** ** More on the aggregation *)

Section AggOrderFacts.
Context {num : Type}.
Implicit Types (df : Table num) (k : cell).

Lemma length_unique {A : Type} `{EqDecision A} (l : list A) :
  (length (unique l) ≤ length l)%nat.
Proof.
  induction l as [|x l IH]; [done|]. simpl.
  pose proof (length_filter (λ y, y ≠ x) (unique l)). lia.
Qed.

Lemma unique_Permutation {A : Type} `{EqDecision A} (l l' : list A) :
  l ≡ₚ l' → unique l ≡ₚ unique l'.
Proof.
  intros Hp. apply NoDup_Permutation; [apply unique_NoDup..|].
  intros x. by rewrite !elem_of_unique, Hp.
Qed.

Lemma group_keys_Permutation (by_ : dim) df df' :
  df ≡ₚ df' → group_keys by_ df = group_keys by_ df'.
Proof.
  intros Hp. unfold group_keys.
  apply (StronglySorted_unique key_le).
  - apply StronglySorted_merge_sort; apply _.
  - apply StronglySorted_merge_sort; apply _.
  - rewrite !merge_sort_Permutation. apply unique_Permutation.
    unfold kept. by rewrite Hp.
Qed.

End AggOrderFacts.

(** X19.  The aggregate has at most as many rows as the table, and it is
    empty exactly when every row of the table lacks the grouping value. *)
Theorem agg_empty_iff {num : Type} `{!Arith num} (by_ : dim) (df : Table num) :
  (length (agg by_ df) ≤ length df)%nat
  ∧ (agg by_ df = [] ↔ ∀ r, r ∈ df → key by_ r = CNull).
Proof.
  split.
  - rewrite <- (length_fmap a_key), agg_keys. unfold group_keys.
    rewrite merge_sort_Permutation.
    etrans; [apply length_unique|]. rewrite length_fmap. apply length_filter.
  - assert (agg by_ df = [] ↔ group_keys by_ df = []) as ->.
    { rewrite <- agg_keys. by destruct (agg by_ df). }
    split.
    + intros He r Hin. destruct (decide (key by_ r = CNull)) as [|Hk]; [done|].
      assert (key by_ r ∈ group_keys by_ df) as Hg
        by (apply elem_of_group_keys; eauto).
      rewrite He in Hg. by apply elem_of_nil in Hg.
    + intros Hall. apply elem_of_nil_inv.
      intros k (Hk & r & Hin & <-)%elem_of_group_keys. by apply Hk, Hall.
Qed.

(** ** Salesperson detail *)

Section DetailFacts.
Context {num : Type}.
Variable str_num : Qc → string.
Implicit Types (t : Table num) (v : string).

Lemma df_v_filter t v :
  df_v str_num t v = filter (λ r, astype_str str_num (vendedor r) = v) t.
Proof.
  unfold df_v. rewrite loc_fmap. apply list_filter_iff.
  intros r. apply bool_decide_spec.
Qed.

Lemma elem_of_vend_list t v :
  v ∈ vend_list str_num t ↔
  ∃ r, r ∈ t ∧ vendedor r ≠ CNull ∧ astype_str str_num (vendedor r) = v.
Proof.
  unfold vend_list. rewrite elem_of_options. split.
  - intros (c & (r & -> & Hin)%list_elem_of_fmap & Hc & Ho). eauto.
  - intros (r & Hin & Hc & Ho). exists (vendedor r). split; [|done].
    apply list_elem_of_fmap. eauto.
Qed.

Lemma filter_iff_elem {A : Type} (P Q : A → Prop)
    `{∀ x, Decision (P x)} `{∀ x, Decision (Q x)} (l : list A) :
  (∀ x, x ∈ l → P x ↔ Q x) → filter P l = filter Q l.
Proof.
  induction l as [|x l IH]; intros Hall; [done|].
  rewrite !filter_cons, IH by (intros y Hy; apply Hall; by right).
  destruct (decide (P x)) as [HP|HP], (decide (Q x)) as [HQ|HQ]; try done.
  - destruct HQ. apply Hall; [by left|done].
  - destruct HP. apply Hall; [by left|done].
Qed.

End DetailFacts.

(** X22.  The detail selector is empty exactly when no row of the
    filtered table has a salesperson, and every salesperson it offers has
    at least one row in the detail table. *)
Theorem detail_choice_keeps_rows {num : Type} (str_num : Qc → string)
    (t : Table num) :
  (vend_list str_num t = [] ↔ ∀ r, r ∈ t → vendedor r = CNull)
  ∧ ∀ v, v ∈ vend_list str_num t → df_v str_num t v ≠ [].
Proof.
  split.
  - split.
    + intros He r Hin. destruct (decide (vendedor r = CNull)) as [|Hc]; [done|].
      assert (astype_str str_num (vendedor r) ∈ vend_list str_num t) as Hv
        by (apply elem_of_vend_list; eauto).
      rewrite He in Hv. by apply elem_of_nil in Hv.
    + intros Hall. apply elem_of_nil_inv.
      intros v (r & Hin & Hc & _)%elem_of_vend_list. by apply Hc, Hall.
  - intros v (r & Hin & _ & Hv)%elem_of_vend_list He.
    assert (r ∈ df_v str_num t v) as Hr
      by (rewrite df_v_filter; by apply list_elem_of_filter).
    rewrite He in Hr. by apply elem_of_nil in Hr.
Qed.

(** X23.  Under a salesperson filter the detail selector offers at most
    that salesperson, and the detail table is the whole filtered table. *)
Theorem detail_under_filter {num : Type} (str_num : Qc → string) (df : Table num)
    (reg_sel vend_sel : string) :
  vend_sel ≠ "(Todos)" →
  (∀ v, v ∈ vend_list str_num (df_f str_num df reg_sel vend_sel) → v = vend_sel)
  ∧ df_v str_num (df_f str_num df reg_sel vend_sel) vend_sel
    = df_f str_num df reg_sel vend_sel.
Proof.
  intros Hne.
  assert (∀ r, r ∈ df_f str_num df reg_sel vend_sel →
               astype_str str_num (vendedor r) = vend_sel) as Hall.
  { intros r. rewrite df_f_filter. intros [[_ [?|?]] _]%list_elem_of_filter; done. }
  split.
  - intros v (r & Hin & _ & <-)%elem_of_vend_list. by apply Hall.
  - rewrite df_v_filter. by apply filter_all.
Qed.

Lemma detail_under_filter_witness :
  "Ana" ≠ "(Todos)"
  ∧ (∀ v, v ∈ vend_list no_numbers (df_f no_numbers example_table "(Todas)" "Ana")
          → v = "Ana")
  ∧ df_v no_numbers (df_f no_numbers example_table "(Todas)" "Ana") "Ana"
    = df_f no_numbers example_table "(Todas)" "Ana".
Proof.
  assert ("Ana" ≠ "(Todos)") as H by done.
  split; [exact H|].
  exact (detail_under_filter no_numbers example_table "(Todas)" "Ana" H).
Defined.

(** ** Int64 columns: totals of the charts, of the metrics and of the detail *)

Section Int64Tables.
Implicit Types (df t : Table number).

Lemma int64_columns_filter (P : Row number → Prop) `{∀ r, Decision (P r)} df :
  Forall (λ r, is_int64 (unidades r) ∧ is_int64 (ventas r)) df →
  Forall (λ r, is_int64 (unidades r) ∧ is_int64 (ventas r)) (filter P df).
Proof.
  rewrite !Forall_forall. intros Hall r [_ Hin]%list_elem_of_filter. by apply Hall.
Qed.

Lemma int64_column_fmap (f : Row number → number) df :
  Forall (λ r, is_int64 (f r)) df → Forall is_int64 (f <$> df).
Proof. by rewrite Forall_fmap. Qed.

Lemma exact_sum_split (f : Row number → number) (P : Row number → Prop)
    `{∀ r, Decision (P r)} df :
  exact_sum (f <$> df)
  = (exact_sum (f <$> filter P df) + exact_sum (f <$> filter (λ r, ¬ P r) df))%Z.
Proof.
  induction df as [|r df IH]; [done|].
  rewrite !filter_cons, fmap_cons, exact_sum_cons, IH.
  destruct (decide (P r)) as [HP|HP].
  - rewrite decide_False by tauto. rewrite fmap_cons, exact_sum_cons. lia.
  - rewrite decide_True by done. rewrite fmap_cons, exact_sum_cons. lia.
Qed.

End Int64Tables.

(** X20.  On int64 columns the aggregate does not depend on the order of
    the rows of the table. *)
Theorem agg_Permutation (by_ : dim) (df df' : Table number) :
  Forall (λ r, is_int64 (unidades r) ∧ is_int64 (ventas r)) df →
  df ≡ₚ df' →
  agg by_ df = agg by_ df'.
Proof.
  intros Hint Hp.
  assert (Forall (λ r, is_int64 (unidades r) ∧ is_int64 (ventas r)) df') as Hint'
    by (by rewrite <- Hp).
  assert (∀ (f : Row number → number) k,
            (∀ r, is_int64 (unidades r) ∧ is_int64 (ventas r) → is_int64 (f r)) →
            group_sum (f <$> group_rows by_ k (kept by_ df))
            = group_sum (f <$> group_rows by_ k (kept by_ df'))) as Hs.
  { intros f k Hf.
    rewrite !group_sum_int64.
    - f_equal. f_equal. apply exact_sum_Permutation.
      unfold group_rows, kept. by rewrite Hp.
    - apply Forall_fmap. unfold group_rows, kept.
      eapply Forall_impl; [apply int64_columns_filter, int64_columns_filter, Hint'|].
      exact Hf.
    - apply Forall_fmap. unfold group_rows, kept.
      eapply Forall_impl; [apply int64_columns_filter, int64_columns_filter, Hint|].
      exact Hf. }
  assert (agg_total by_ df = agg_total by_ df') as Ht.
  { rewrite !agg_total_unfold, (group_keys_Permutation by_ df df' Hp).
    f_equal. apply list_fmap_ext. intros i k _. apply Hs. tauto. }
  rewrite !agg_unfold, (group_keys_Permutation by_ df df' Hp), Ht.
  apply list_fmap_ext. intros i k _.
  rewrite (Hs unidades k) by tauto. rewrite (Hs ventas k) by tauto. done.
Qed.

Lemma agg_Permutation_witness :
  Forall (λ r, is_int64 (unidades r) ∧ is_int64 (ventas r)) example_table
  ∧ example_table ≡ₚ reverse example_table
  ∧ agg ByVendedor example_table = agg ByVendedor (reverse example_table).
Proof.
  assert (Forall (λ r, is_int64 (unidades r) ∧ is_int64 (ventas r)) example_table)
    as H1.
  { repeat (apply Forall_cons; split;
            [split; (eexists; split; [reflexivity|by vm_compute])|]).
    apply Forall_nil_2. }
  assert (example_table ≡ₚ reverse example_table) as H2
    by (symmetry; apply reverse_Permutation).
  split; [exact H1|]. split; [exact H2|].
  exact (agg_Permutation ByVendedor example_table (reverse example_table) H1 H2).
Defined.

(** On float64 columns the order of the rows matters: the sales 1e16, 0.5,
    -1e16 of one salesperson add up to 0 in this order and to 0.5 with the
    last two exchanged. *)
Example agg_order_matters_for_floats :
  a_ventas <$> agg ByVendedor
    [ {| region := CStr "N"; vendedor := CStr "Ana";
         unidades := I64 1; ventas := F64 1e16 |};
      {| region := CStr "N"; vendedor := CStr "Ana";
         unidades := I64 1; ventas := F64 0.5 |};
      {| region := CStr "N"; vendedor := CStr "Ana";
         unidades := I64 1; ventas := F64 (-1e16) |} ]
  = [F64 0]
  ∧ a_ventas <$> agg ByVendedor
      [ {| region := CStr "N"; vendedor := CStr "Ana";
           unidades := I64 1; ventas := F64 1e16 |};
        {| region := CStr "N"; vendedor := CStr "Ana";
           unidades := I64 1; ventas := F64 (-1e16) |};
        {| region := CStr "N"; vendedor := CStr "Ana";
           unidades := I64 1; ventas := F64 0.5 |} ]
    = [F64 0.5].
Proof. split; vm_compute; reflexivity. Qed.

(** X24.  When every salesperson cell of the filtered table is text and
    the numeric columns are int64, each row of the aggregate by salesperson
    agrees with the detail of that salesperson: same sales, same units, and
    the percentage of the aggregate is the share of the detail rounded to
    two decimals. *)
Theorem detail_matches_agg (str_num : Qc → string) (t : Table number)
    (a : AggRow number) :
  Forall (λ r, ∃ s, vendedor r = CStr s) t →
  Forall (λ r, is_int64 (unidades r) ∧ is_int64 (ventas r)) t →
  a ∈ agg ByVendedor t →
  ∃ v, a_key a = CStr v
       ∧ v ∈ vend_list str_num t
       ∧ a_ventas a = detail_ventas str_num t v
       ∧ a_unidades a = detail_unidades str_num t v
       ∧ pct_ventas a = round2 (detail_pct str_num t v).
Proof.
  intros Htext Hint. rewrite Forall_forall in Htext.
  assert (kept ByVendedor t = t) as Hk.
  { unfold kept. apply filter_all. intros r [s Hs]%Htext. simpl. by rewrite Hs. }
  assert (Forall (λ r, is_int64 (ventas r)) t) as Hv
    by (eapply Forall_impl; [exact Hint|]; simpl; tauto).
  assert (agg_total ByVendedor t = series_sum (ventas <$> t)) as Ht.
  { rewrite (agg_total_int64 ByVendedor t Hv), Hk. symmetry.
    by apply series_sum_int64, int64_column_fmap. }
  rewrite agg_unfold, Ht, Hk.
  intros (k & -> & (Hnull & r & Hin & Hkey)%elem_of_group_keys)%list_elem_of_fmap.
  simpl in Hkey. destruct (Htext r Hin) as [v Hrv]. rewrite Hrv in Hkey. subst k.
  assert (group_rows ByVendedor (CStr v) t = df_v str_num t v) as Hg.
  { rewrite df_v_filter. unfold group_rows. apply filter_iff_elem.
    intros r' Hin'. simpl. split.
    - by intros ->.
    - intros Hs. destruct (Htext r' Hin') as [s Hs'].
      rewrite Hs' in Hs |- *. simpl in Hs. by subst s. }
  assert (∀ f : Row number → number,
            (∀ r, is_int64 (unidades r) ∧ is_int64 (ventas r) → is_int64 (f r)) →
            group_sum (f <$> df_v str_num t v) = series_sum (f <$> df_v str_num t v))
    as Hsum.
  { intros f Hf.
    assert (Forall is_int64 (f <$> df_v str_num t v)) as Hfv.
    { apply Forall_fmap. rewrite df_v_filter.
      eapply Forall_impl; [apply int64_columns_filter, Hint|]. exact Hf. }
    by rewrite group_sum_int64, series_sum_int64. }
  exists v. cbn [a_key a_unidades a_ventas pct_ventas]. rewrite Hg.
  split; [done|]. split.
  { apply elem_of_vend_list. exists r. rewrite Hrv. by eauto. }
  unfold detail_ventas, detail_unidades, detail_pct.
  rewrite (Hsum ventas) by tauto. rewrite (Hsum unidades) by tauto.
  split; [done|]. split; [done|].
  by destruct (is_zero (series_sum (ventas <$> t))).
Qed.

Lemma detail_matches_agg_witness :
  Forall (λ r, ∃ s, vendedor r = CStr s) example_table
  ∧ Forall (λ r, is_int64 (unidades r) ∧ is_int64 (ventas r)) example_table
  ∧ {| a_key := CStr "Beto"; a_unidades := I64 5; a_ventas := I64 50;
       pct_ventas := F64 (2941 / 100) |} ∈ agg ByVendedor example_table
  ∧ ∃ v, CStr "Beto" = CStr v
         ∧ v ∈ vend_list no_numbers example_table
         ∧ I64 50 = detail_ventas no_numbers example_table v
         ∧ I64 5 = detail_unidades no_numbers example_table v
         ∧ F64 (2941 / 100) = round2 (detail_pct no_numbers example_table v).
Proof.
  assert (Forall (λ r, ∃ s, vendedor r = CStr s) example_table) as H
    by (repeat (apply Forall_cons; split; [by eexists|]); apply Forall_nil_2).
  assert (Forall (λ r, is_int64 (unidades r) ∧ is_int64 (ventas r)) example_table)
    as H1.
  { repeat (apply Forall_cons; split;
            [split; (eexists; split; [reflexivity|by vm_compute])|]).
    apply Forall_nil_2. }
  assert ({| a_key := CStr "Beto"; a_unidades := I64 5; a_ventas := I64 50;
             pct_ventas := F64 (2941 / 100) |} ∈ agg ByVendedor example_table)
    as Hin.
  { replace (agg ByVendedor example_table)
      with [ {| a_key := CStr "Ana"; a_unidades := I64 12; a_ventas := I64 120;
                pct_ventas := F64 (7059 / 100) |};
             {| a_key := CStr "Beto"; a_unidades := I64 5; a_ventas := I64 50;
                pct_ventas := F64 (2941 / 100) |} ]
      by (vm_compute; reflexivity).
    right. left. }
  split; [exact H|]. split; [exact H1|]. split; [exact Hin|].
  exact (detail_matches_agg no_numbers example_table _ H H1 Hin).
Defined.

(** A missing salesperson reads [nan] as text: the detail of a salesperson
    called [nan] also counts the rows without salesperson, which the
    aggregate leaves out. *)
Example detail_counts_missing_as_nan :
  detail_ventas no_numbers
    [ {| region := CStr "N"; vendedor := CStr "nan";
         unidades := I64 1; ventas := I64 10 |};
      {| region := CStr "N"; vendedor := CNull;
         unidades := I64 1; ventas := I64 5 |} ] "nan"
  = I64 15
  ∧ (λ a, (a_key a, a_ventas a))
      <$> agg ByVendedor
            [ {| region := CStr "N"; vendedor := CStr "nan";
                 unidades := I64 1; ventas := I64 10 |};
              {| region := CStr "N"; vendedor := CNull;
                 unidades := I64 1; ventas := I64 5 |} ]
    = [(CStr "nan", I64 10)].
Proof. split; vm_compute; reflexivity. Qed.

(** ** A mapping that succeeds *)

Section DistinctChoice.
Implicit Types (df : DataFrame) (sel : Selections).

Lemma occurrences_rename m df name :
  occurrences name (rename m df)
  = length (filter (λ l, rename_label m l = LStr name) (labels df)).
Proof.
  unfold occurrences. rewrite labels_rename.
  induction (labels df) as [|l ls IH]; [done|].
  rewrite fmap_cons, !filter_cons.
  destruct (decide (rename_label m l = LStr name)); simpl; by rewrite IH.
Qed.

Lemma length_filter_eq_NoDup {A : Type} `{EqDecision A} (l : list A) (x : A) :
  NoDup l → x ∈ l → length (filter (λ y, y = x) l) = 1.
Proof.
  induction 1 as [|y l Hy Hnd IH]; [by intros ?%elem_of_nil|].
  rewrite filter_cons. intros [->|Hin]%elem_of_cons.
  - rewrite decide_True by done. simpl. f_equal.
    replace (filter (λ y0, y0 = y) l) with (@nil A); [done|].
    symmetry. apply elem_of_nil_inv. by intros z [-> Hz]%list_elem_of_filter.
  - rewrite decide_False by (intros ->; done). by apply IH.
Qed.

Lemma rename_map_distinct sel :
  use_fecha sel = false →
  NoDup [c_region sel; c_vend sel; c_unid sel; c_ventas sel] →
  rename_map sel !! c_region sel = Some "region"
  ∧ rename_map sel !! c_vend sel = Some "vendedor"
  ∧ rename_map sel !! c_unid sel = Some "unidades"
  ∧ rename_map sel !! c_ventas sel = Some "ventas"
  ∧ ∀ s, s ∉ [c_region sel; c_vend sel; c_unid sel; c_ventas sel] →
         rename_map sel !! s = None.
Proof.
  intros Hf Hnd. unfold rename_map. rewrite Hf.
  assert (match c_fecha sel with
          | Some f => if false && truthy (Some f)
                      then <[f:="fecha"]> (<[c_ventas sel:="ventas"]>
                             (<[c_unid sel:="unidades"]>
                                (<[c_vend sel:="vendedor"]>
                                   (<[c_region sel:="region"]> ∅))))
                      else <[c_ventas sel:="ventas"]>
                             (<[c_unid sel:="unidades"]>
                                (<[c_vend sel:="vendedor"]>
                                   (<[c_region sel:="region"]> ∅)))
          | None => <[c_ventas sel:="ventas"]>
                      (<[c_unid sel:="unidades"]>
                         (<[c_vend sel:="vendedor"]>
                            (<[c_region sel:="region"]> (∅ : gmap string string))))
          end
          = <[c_ventas sel:="ventas"]>
              (<[c_unid sel:="unidades"]>
                 (<[c_vend sel:="vendedor"]>
                    (<[c_region sel:="region"]> ∅)))) as ->
    by (by destruct (c_fecha sel)).
  apply NoDup_cons in Hnd as [Hr Hnd]. apply NoDup_cons in Hnd as [Hv Hnd].
  apply NoDup_cons in Hnd as [Hu _].
  apply not_elem_of_cons in Hr as [Hrv Hr]. apply not_elem_of_cons in Hr as [Hru Hr].
  apply not_elem_of_cons in Hr as [Hrs _].
  apply not_elem_of_cons in Hv as [Hvu Hv]. apply not_elem_of_cons in Hv as [Hvs _].
  apply not_elem_of_cons in Hu as [Hus _].
  split; [|split; [|split; [|split]]].
  - rewrite !lookup_insert_ne by congruence. apply lookup_insert_eq.
  - rewrite !lookup_insert_ne by congruence. apply lookup_insert_eq.
  - rewrite lookup_insert_ne by congruence. apply lookup_insert_eq.
  - apply lookup_insert_eq.
  - intros s Hs.
    apply not_elem_of_cons in Hs as [H1 Hs]. apply not_elem_of_cons in Hs as [H2 Hs].
    apply not_elem_of_cons in Hs as [H3 Hs]. apply not_elem_of_cons in Hs as [H4 _].
    rewrite !lookup_insert_ne by congruence. apply lookup_empty.
Qed.

End DistinctChoice.

Section DistinctChoiceOutcome.
Implicit Types (df : DataFrame) (sel : Selections) (m : gmap string string).

Lemma occurrences_role df m c name :
  NoDup (labels df) →
  LStr c ∈ labels df →
  m !! c = Some name →
  (∀ s, m !! s = Some name → s = c) →
  (LStr name ∈ labels df → is_Some (m !! name)) →
  occurrences name (rename m df) = 1.
Proof.
  intros Hnd Hc Hm Honly Hraw. rewrite occurrences_rename.
  rewrite (filter_iff_elem _ (λ l, l = LStr c) (labels df));
    [by apply length_filter_eq_NoDup|].
  intros [s|z] Hin; simpl; [|done].
  destruct (m !! s) as [t|] eqn:Es.
  - split.
    + intros [= ->]. f_equal. by apply Honly.
    + intros [= ->]. rewrite Hm in Es. by simplify_eq.
  - split.
    + intros [= ->]. destruct (Hraw Hin) as [t Ht]. rewrite Ht in Es. done.
    + intros [= ->]. rewrite Hm in Es. done.
Qed.

Lemma occurrences_unmapped df m name :
  NoDup (labels df) →
  (∀ s, m !! s ≠ Some name) →
  (occurrences name (rename m df) ≤ 1)%nat.
Proof.
  intros Hnd Hno. rewrite occurrences_rename.
  destruct (decide (LStr name ∈ labels df)) as [Hin|Hout].
  - rewrite <- (length_filter_eq_NoDup (labels df) (LStr name) Hnd Hin).
    destruct (m !! name) as [t|] eqn:En.
    + replace (filter (λ l, rename_label m l = LStr name) (labels df))
        with (@nil label); [simpl; lia|].
      symmetry. apply elem_of_nil_inv. intros [s|z] [Hl _]%list_elem_of_filter;
        simpl in Hl; [|done].
      destruct (m !! s) as [t'|] eqn:Es; simplify_eq. by destruct (Hno s).
    + rewrite (filter_iff_elem _ (λ l, l = LStr name) (labels df)); [done|].
      intros [s|z] _; simpl; [|done].
      destruct (m !! s) as [t'|] eqn:Es; [|done]. split.
      * intros [= ->]. by destruct (Hno s).
      * intros [= ->]. rewrite En in Es. done.
  - replace (filter (λ l, rename_label m l = LStr name) (labels df))
      with (@nil label); [simpl; lia|].
    symmetry. apply elem_of_nil_inv. intros [s|z] [Hl Hin]%list_elem_of_filter;
      simpl in Hl; [|done].
    destruct (m !! s) as [t'|] eqn:Es; simplify_eq; [by destruct (Hno s)|done].
Qed.

End DistinctChoiceOutcome.

(** X25.  On a sheet whose headers are all different, choosing four
    different columns for the four roles, with the date box unticked,
    makes the mapping stage succeed, provided no column left unchosen is
    already called [region], [vendedor], [unidades] or [ventas]. *)
Theorem distinct_choice_succeeds (to_datetime : Series → Series)
    (df : DataFrame) (sel : Selections) :
  NoDup (labels df) →
  use_fecha sel = false →
  NoDup [c_region sel; c_vend sel; c_unid sel; c_ventas sel] →
  (∀ c, c ∈ [c_region sel; c_vend sel; c_unid sel; c_ventas sel] →
        LStr c ∈ labels df) →
  (∀ name, name ∈ ["region"; "vendedor"; "unidades"; "ventas"] →
           LStr name ∈ labels df →
           name ∈ [c_region sel; c_vend sel; c_unid sel; c_ventas sel]) →
  ∃ df', mapping to_datetime df sel = Ok df'
         ∧ labels df' = labels (rename (rename_map sel) df).
Proof.
  intros Hnd Hf Hsel Hin Hraw.
  destruct (rename_map_distinct sel Hf Hsel) as (Mr & Mv & Mu & Ms & Mo).
  assert (∀ s t, rename_map sel !! s = Some t →
                 (s = c_region sel ∧ t = "region")
                 ∨ (s = c_vend sel ∧ t = "vendedor")
                 ∨ (s = c_unid sel ∧ t = "unidades")
                 ∨ (s = c_ventas sel ∧ t = "ventas")) as Minv.
  { intros s t Hs.
    destruct (decide (s ∈ [c_region sel; c_vend sel; c_unid sel; c_ventas sel]))
      as [Hsin|Hsout]; [|rewrite (Mo s Hsout) in Hs; discriminate].
    apply elem_of_cons in Hsin as [->|Hsin]; [left; split; [done|congruence]|].
    apply elem_of_cons in Hsin as [->|Hsin];
      [right; left; split; [done|congruence]|].
    apply elem_of_cons in Hsin as [->|Hsin];
      [right; right; left; split; [done|congruence]|].
    apply elem_of_cons in Hsin as [->|Hsin]; [|by apply elem_of_nil in Hsin].
    right; right; right; split; [done|congruence]. }
  assert (∀ name, name ∈ ["region"; "vendedor"; "unidades"; "ventas"] →
                  LStr name ∈ labels df → is_Some (rename_map sel !! name))
    as Hmapped.
  { intros name Hn Hl. specialize (Hraw name Hn Hl).
    apply elem_of_cons in Hraw as [->|Hraw]; [by eexists|].
    apply elem_of_cons in Hraw as [->|Hraw]; [by eexists|].
    apply elem_of_cons in Hraw as [->|Hraw]; [by eexists|].
    apply elem_of_cons in Hraw as [->|Hraw]; [by eexists|].
    by apply elem_of_nil in Hraw. }
  assert (occurrences "region" (rename (rename_map sel) df) = 1) as Or.
  { apply (occurrences_role df _ (c_region sel)); [done| |done| |].
    - apply Hin. by left.
    - intros s [(-> & _)|[(_ & ?)|[(_ & ?)|(_ & ?)]]]%Minv; done.
    - apply Hmapped. by left. }
  assert (occurrences "vendedor" (rename (rename_map sel) df) = 1) as Ov.
  { apply (occurrences_role df _ (c_vend sel)); [done| |done| |].
    - apply Hin. right. by left.
    - intros s [(_ & ?)|[(-> & _)|[(_ & ?)|(_ & ?)]]]%Minv; done.
    - apply Hmapped. right. by left. }
  assert (occurrences "unidades" (rename (rename_map sel) df) = 1) as Ou.
  { apply (occurrences_role df _ (c_unid sel)); [done| |done| |].
    - apply Hin. right. right. by left.
    - intros s [(_ & ?)|[(_ & ?)|[(-> & _)|(_ & ?)]]]%Minv; done.
    - apply Hmapped. right. right. by left. }
  assert (occurrences "ventas" (rename (rename_map sel) df) = 1) as Os.
  { apply (occurrences_role df _ (c_ventas sel)); [done| |done| |].
    - apply Hin. right. right. right. by left.
    - intros s [(_ & ?)|[(_ & ?)|[(_ & ?)|(-> & _)]]]%Minv; done.
    - apply Hmapped. right. right. right. by left. }
  assert (occurrences "fecha" (rename (rename_map sel) df) ≤ 1)%nat as Of.
  { apply occurrences_unmapped; [done|].
    intros s [(_ & ?)|[(_ & ?)|[(_ & ?)|(_ & ?)]]]%Minv; done. }
  assert (absent (rename (rename_map sel) df) = ∅) as Ha.
  { apply absent_empty.
    split; [|split; [|split]]; apply occurrences_elem;
      [rewrite Or|rewrite Ov|rewrite Ou|rewrite Os]; apply Nat.lt_0_1. }
  destruct (mapping_cases to_datetime df sel)
    as [[U E]|[[U E]|(U & [[V E]|[[V E]|(V & [[F E]|(F & [[A E]|(A & df' & E & L)])])]])]].
  - rewrite Ou in U. discriminate.
  - rewrite Ou in U. lia.
  - rewrite Os in V. discriminate.
  - rewrite Os in V. lia.
  - clear -Of F. lia.
  - destruct (A Ha).
  - exists df'. by split.
Qed.

Lemma distinct_choice_succeeds_witness :
  NoDup (labels plain_frame)
  ∧ use_fecha plain_selections = false
  ∧ NoDup [c_region plain_selections; c_vend plain_selections;
           c_unid plain_selections; c_ventas plain_selections]
  ∧ ∃ df', mapping keep_cells plain_frame plain_selections = Ok df'
           ∧ labels df' = labels (rename (rename_map plain_selections) plain_frame).
Proof.
  assert (NoDup (labels plain_frame)) as H1.
  { repeat (apply NoDup_cons_2;
            [intros H; repeat (apply elem_of_cons in H as [H|H]; [discriminate H|]);
             by apply elem_of_nil in H|]).
    apply NoDup_nil_2. }
  assert (NoDup [c_region plain_selections; c_vend plain_selections;
                 c_unid plain_selections; c_ventas plain_selections]) as H3.
  { repeat (apply NoDup_cons_2;
            [intros H; repeat (apply elem_of_cons in H as [H|H]; [discriminate H|]);
             by apply elem_of_nil in H|]).
    apply NoDup_nil_2. }
  split; [exact H1|]. split; [reflexivity|]. split; [exact H3|].
  apply (distinct_choice_succeeds keep_cells plain_frame plain_selections H1
           eq_refl H3).
  - intros c Hc. unfold plain_frame, labels. simpl in *.
    repeat (apply elem_of_cons in Hc as [->|Hc]; [repeat constructor|]).
    by apply elem_of_nil in Hc.
  - intros name Hn Hl. unfold plain_frame, labels in Hl. simpl in Hl.
    repeat (apply elem_of_cons in Hl as [Hl|Hl];
            [repeat (apply elem_of_cons in Hn as [->|Hn]; [discriminate Hl|]);
             by apply elem_of_nil in Hn|]).
    by apply elem_of_nil in Hl.
Defined.

(** X26.  On an int64 column, the units of the aggregate rows add up to
    what the units of the rows whose grouping value is not missing add up
    to: the sum of those integers modulo 2^64. *)
Theorem agg_units_preserved (by_ : dim) (df : Table number) :
  Forall (λ r, is_int64 (unidades r)) df →
  series_sum (a_unidades <$> agg by_ df)
  = series_sum (unidades <$> filter (λ r, key by_ r ≠ CNull) df)
  ∧ series_sum (a_unidades <$> agg by_ df)
    = I64 (wrap64 (exact_sum (unidades <$> filter (λ r, key by_ r ≠ CNull) df))).
Proof.
  intros Hint. fold (kept by_ df).
  rewrite agg_unidades_column, (group_sums_int64 by_ unidades df Hint).
  split; [|done].
  symmetry. apply series_sum_int64. unfold kept. by apply int64_column_filter.
Qed.

Lemma agg_units_preserved_witness :
  Forall (λ r, is_int64 (unidades r)) example_table
  ∧ series_sum (a_unidades <$> agg ByVendedor example_table)
    = series_sum (unidades <$> filter (λ r, key ByVendedor r ≠ CNull) example_table)
  ∧ series_sum (a_unidades <$> agg ByVendedor example_table)
    = I64 (wrap64 (exact_sum (unidades <$> filter (λ r, key ByVendedor r ≠ CNull)
                                            example_table))).
Proof.
  assert (Forall (λ r, is_int64 (unidades r)) example_table) as H.
  { repeat (apply Forall_cons; split;
            [eexists; split; [reflexivity|by vm_compute]|]).
    apply Forall_nil_2. }
  split; [exact H|].
  exact (agg_units_preserved ByVendedor example_table H).
Defined.

(** X27.  On an int64 column, the sales metric of a table is the int64
    sum of the sales of the aggregate and of the sales of the rows without
    grouping value, which the charts leave out. *)
Theorem metric_ventas_split (by_ : dim) (df : Table number) :
  Forall (λ r, is_int64 (ventas r)) df →
  metric_ventas df
  = I64 (wrap64 (int_of (series_sum (a_ventas <$> agg by_ df))
                 + int_of (series_sum
                             (ventas <$> filter (λ r, key by_ r = CNull) df)))).
Proof.
  intros Hint. unfold metric_ventas.
  fold (agg_total by_ df). rewrite (agg_total_int64 by_ df Hint).
  rewrite (series_sum_int64 (ventas <$> filter _ df))
    by (by apply int64_column_filter).
  rewrite series_sum_int64 by (by apply int64_column_fmap).
  simpl int_of. rewrite wrap64_idemp_l, wrap64_idemp_r. f_equal. f_equal.
  rewrite (exact_sum_split ventas (λ r, key by_ r ≠ CNull) df). unfold kept.
  f_equal. f_equal. f_equal. apply list_filter_iff. intros r.
  destruct (decide (key by_ r = CNull)); tauto.
Qed.

Lemma metric_ventas_split_witness :
  Forall (λ r, is_int64 (ventas r))
    [ {| region := CStr "N"; vendedor := CStr "Ana";
         unidades := I64 1; ventas := I64 10 |};
      {| region := CNull; vendedor := CStr "Beto";
         unidades := I64 1; ventas := I64 5 |} ]
  ∧ metric_ventas
      [ {| region := CStr "N"; vendedor := CStr "Ana";
           unidades := I64 1; ventas := I64 10 |};
        {| region := CNull; vendedor := CStr "Beto";
           unidades := I64 1; ventas := I64 5 |} ]
    = I64 (wrap64 (int_of (series_sum
                             (a_ventas <$> agg ByRegion
                                [ {| region := CStr "N"; vendedor := CStr "Ana";
                                     unidades := I64 1; ventas := I64 10 |};
                                  {| region := CNull; vendedor := CStr "Beto";
                                     unidades := I64 1; ventas := I64 5 |} ]))
                   + int_of (series_sum
                               (ventas <$> filter (λ r, key ByRegion r = CNull)
                                  [ {| region := CStr "N"; vendedor := CStr "Ana";
                                       unidades := I64 1; ventas := I64 10 |};
                                    {| region := CNull; vendedor := CStr "Beto";
                                       unidades := I64 1; ventas := I64 5 |} ])))).
Proof.
  assert (Forall (λ r, is_int64 (ventas r))
            [ {| region := CStr "N"; vendedor := CStr "Ana";
                 unidades := I64 1; ventas := I64 10 |};
              {| region := CNull; vendedor := CStr "Beto";
                 unidades := I64 1; ventas := I64 5 |} ]) as H.
  { repeat (apply Forall_cons; split;
            [eexists; split; [reflexivity|by vm_compute]|]).
    apply Forall_nil_2. }
  split; [exact H|].
  exact (metric_ventas_split ByRegion _ H).
Defined.
